(** * trivelastic: sanitizer, indexing client and worker pool

    A shallow embedding of the Go packages [pkg/sanitizer],
    [internal/elasticsearch] and [internal/worker] of trivelastic, together
    with the sanitizer that is inlined in the older entry point [main.go],
    and the properties of them that the design document states.

    Conventions.
    - A decoded JSON value (Go's [interface{}] as produced by
      [encoding/json]) is the inductive type [jvalue]; a Go
      [map[string]interface{}] is a [gmap string jvalue]; a [[]interface{}]
      is a [list jvalue]; a [float64] is a [spec_float].
    - A Go [error] is a value of type [error]; the [nil] error is [None].
    - Calls that leave the process (the HTTP transport, [time.Sleep]) are
      recorded in a [World] that is threaded through the code; what the
      libraries and the network answer is an [Env].
    - The goroutines of the pool and the two channels are a labelled
      transition system, one step per channel operation.
    - Log output (zerolog) is not modelled.  *)

From Stdlib Require Import ZArith Floats.SpecFloat Strings.Byte.
From stdpp Require Import gmap strings list fin_maps pretty.


(* ===================================================================== *)
(** ** Decoded JSON values *)
(* ===================================================================== *)

Module Json.

(** What [json.Unmarshal] stores in an [interface{}]: [nil], [bool],
    [float64], [string], [[]interface{}] or [map[string]interface{}]. *)
#[warnings="-register-all"]
Inductive jvalue : Type :=
| VNull
| VBool (b : bool)
| VNum (f : spec_float)
| VStr (s : string)
| VArr (l : list jvalue)
| VObj (m : gmap string jvalue).

(** [value == nil] on an [interface{}]. *)
Definition is_nil (value : jvalue) : bool :=
  match value with VNull => true | _ => false end.

(** [value == ""] on an [interface{}]: the dynamic type is [string] and the
    string is empty. *)
Definition is_empty_string (value : jvalue) : bool :=
  match value with VStr s => bool_decide (s = "") | _ => false end.

(** The number of constructors of a value: the measure for recursion through
    maps and slices. *)
Fixpoint jsize (v : jvalue) : nat :=
  match v with
  | VArr l => S (foldr (λ x acc, jsize x + acc) 0 l)
  | VObj m => S (map_fold (λ _ x acc, jsize x + acc) 0 m)
  | _ => 1
  end.

(** [occurs v root]: the value [v] sits somewhere inside [root], under any
    number of keys and slice positions ([root] itself included). *)
Inductive occurs (v : jvalue) : jvalue → Prop :=
| occurs_here : occurs v v
| occurs_key (m : gmap string jvalue) (k : string) (x : jvalue) :
    m !! k = Some x → occurs v x → occurs v (VObj m)
| occurs_elem (l : list jvalue) (i : nat) (x : jvalue) :
    l !! i = Some x → occurs v x → occurs v (VArr l).

(** The float64 zero. *)
Definition zero : spec_float := S754_zero false.

End Json.
Export Json.

(* ===================================================================== *)
(** ** pkg/sanitizer/sanitizer.go *)
(* ===================================================================== *)

Module Sanitizer.

(** The body of the two [range] loops.  [entry key value] is what one
    iteration of the loop of [SanitizeJSON] stores under [key] in [result]
    ([None]: the iteration leaves [result] unchanged); [elem value] is what
    one iteration of the loop of [sanitizeArray] appends ([None]: nothing).
    The recursive calls are the two functions themselves: [map_imap entry]
    is, by definition, the fold that starts from the empty map and inserts
    [entry key value] under [key] for every pair of the argument. *)
Fixpoint entry (key : string) (value : jvalue) {struct value} : option jvalue :=
  if bool_decide (key = ".") || bool_decide (key = "..") then None
  else if bool_decide (key = "lastModifiedDate")
          && (is_empty_string value || is_nil value) then None
  else
    match value with
    | VObj v =>
        let sanitized := map_imap entry v in
        if bool_decide (0 < size sanitized) then Some (VObj sanitized) else None
    | VArr v =>
        let sanitized := omap elem v in
        if bool_decide (0 < length sanitized) then Some (VArr sanitized) else None
    | VStr v =>
        if bool_decide (v ≠ "") then Some value else None
    | _ =>
        if negb (is_nil value) then Some value else None
    end
with elem (value : jvalue) {struct value} : option jvalue :=
  match value with
  | VObj v =>
      let sanitized := map_imap entry v in
      if bool_decide (0 < size sanitized) then Some (VObj sanitized) else None
  | VArr v =>
      let sanitized := omap elem v in
      if bool_decide (0 < length sanitized) then Some (VArr sanitized) else None
  | _ =>
      if negb (is_nil value) then Some value else None
  end.

(** [func SanitizeJSON(data map[string]interface{}) map[string]interface{}] *)
Definition SanitizeJSON (data : gmap string jvalue) : gmap string jvalue :=
  map_imap entry data.

(** [func sanitizeArray(arr []interface{}) []interface{}] *)
Definition sanitizeArray (arr : list jvalue) : list jvalue :=
  omap elem arr.

(** The two key-based tests at the head of the loop of [SanitizeJSON], which
    end the iteration with [continue]. *)
Definition key_dropped (key : string) (value : jvalue) : bool :=
  (bool_decide (key = ".") || bool_decide (key = ".."))
  || (bool_decide (key = "lastModifiedDate")
      && (is_empty_string value || is_nil value)).

(** A nested Document or sequence whose sanitization is empty. *)
Definition sanitizes_to_empty (value : jvalue) : Prop :=
  match value with
  | VObj v => SanitizeJSON v = ∅
  | VArr v => sanitizeArray v = []
  | _ => False
  end.

End Sanitizer.

(* ===================================================================== *)
(** ** main.go: the sanitizer inlined in the older entry point *)
(* ===================================================================== *)

Module Main.

(** Loop bodies of [sanitizeJSON] and [sanitizeArray] of [main.go].  The
    loop of [sanitizeArray] appends one element per iteration, whatever the
    element is. *)
Fixpoint entry (key : string) (value : jvalue) {struct value} : option jvalue :=
  if bool_decide (key = ".") || bool_decide (key = "..") then None
  else if bool_decide (key = "lastModifiedDate")
          && (is_empty_string value || is_nil value) then None
  else
    match value with
    | VObj v =>
        let sanitized := map_imap entry v in
        if bool_decide (0 < size sanitized) then Some (VObj sanitized) else None
    | VArr v =>
        let sanitized := map elem v in
        if bool_decide (0 < length sanitized) then Some (VArr sanitized) else None
    | VStr v =>
        if bool_decide (v ≠ "") then Some value else None
    | _ =>
        if negb (is_nil value) then Some value else None
    end
with elem (value : jvalue) {struct value} : jvalue :=
  match value with
  | VObj v => VObj (map_imap entry v)
  | VArr v => VArr (map elem v)
  | _ => value
  end.

(** [func sanitizeJSON(data map[string]interface{}) map[string]interface{}] *)
Definition sanitizeJSON (data : gmap string jvalue) : gmap string jvalue :=
  map_imap entry data.

(** [func sanitizeArray(arr []interface{}) []interface{}] *)
Definition sanitizeArray (arr : list jvalue) : list jvalue :=
  map elem arr.

End Main.

(* ===================================================================== *)
(** ** Errors, bytes and the world outside the process *)
(* ===================================================================== *)

Module Go.

(** A Go [error]: a plain message ([errors.New], [fmt.Errorf] without
    [%w]) or a message wrapping a cause ([fmt.Errorf] with [%w]). *)
Inductive error : Type :=
| errorString (s : string)
| wrapError (msg : string) (err : error).

(** [err.Error()] *)
Definition Error (e : error) : string :=
  match e with
  | errorString s => s
  | wrapError msg _ => msg
  end.

(** [errors.Unwrap(err)] *)
Definition Unwrap (e : error) : option error :=
  match e with
  | errorString _ => None
  | wrapError _ err => Some err
  end.

(** [fmt.Errorf(prefix + "%w", err)]; a [nil] operand prints as
    [%!w(<nil>)] and wraps nothing. *)
Definition Errorf_w (prefix : string) (err : option error) : error :=
  match err with
  | Some e => wrapError (prefix +:+ Error e) e
  | None => errorString (prefix +:+ "%!w(<nil>)")
  end.

(** [string(b)] and [[]byte(s)] *)
Definition string_of_bytes (b : list byte) : string := String.string_of_list_byte b.
Definition bytes_of_string (s : string) : list byte := String.list_byte_of_string s.

(** [time.Duration] counts nanoseconds. *)
Definition Second : Z := 1000000000.

(** An outbound HTTP request as [sendRequest] builds it. *)
Record Request : Type := {
  req_method : string;
  req_url : string;
  req_header : list (string * string);
  req_body : list byte;
}.

(** What [client.Do] returns: an error, or a response with its status code
    and what [io.ReadAll(resp.Body)] will return. *)
Inductive DoResult : Type :=
| DoError (err : error)
| DoResponse (StatusCode : Z) (Body : error + list byte).

(** The libraries and the network, as far as the code calls them.
    [transport n req] is the reply to the [n]-th call of [client.Do] of the
    process (counted from 0). *)
Record Env : Type := {
  json_Marshal : jvalue → error + list byte;
  json_Unmarshal : list byte → error + jvalue;
  http_NewRequest : string → string → option error;
  transport : nat → Request → DoResult;
}.

(** Effects that leave the process, in the order they happen. *)
Inductive event : Type :=
| EvDo (req : Request)
| EvSleep (d : Z)
| EvDone.

Record World : Type := {
  calls : nat;
  trace : list event;
}.

(** State passing over the world. *)
Definition M (A : Type) : Type := World → A * World.
Definition ret {A} (a : A) : M A := λ w, (a, w).
Definition bind {A B} (m : M A) (k : A → M B) : M B :=
  λ w, let '(a, w') := m w in k a w'.

Definition emit (e : event) : M unit :=
  λ w, (tt, {| calls := calls w; trace := trace w ++ [e] |}).

(** [time.Sleep(d)] *)
Definition Sleep (d : Z) : M unit := emit (EvSleep d).

(** [client.Do(req)] *)
Definition Do (env : Env) (req : Request) : M DoResult :=
  λ w, (transport env (calls w) req,
        {| calls := S (calls w); trace := trace w ++ [EvDo req] |}).

End Go.
Export Go.

Notation "'do' x <- m ; k" := (bind m (λ x, k))
  (at level 10, x name, m at level 100, k at level 200,
   format "'[v' 'do'  x  <-  m ; '/' k ']'").
Notation "m ;; k" := (bind m (λ _, k))
  (at level 100, k at level 200, right associativity).

(* ===================================================================== *)
(** ** internal/elasticsearch/client.go *)
(* ===================================================================== *)

Module Elasticsearch.

Definition maxRetries : Z := 3.
Definition retryInterval : Z := 1 * Second.

(** [config.ElasticsearchConfig] *)
Record ElasticsearchConfig : Type := {
  URL : string;
  APIKey : string;
  Index : string;
}.

(** [Client]; its [http.Client] is the [transport] of the environment. *)
Record Client : Type := {
  config : ElasticsearchConfig;
}.

Section WithEnv.
Variable env : Env.

(** The request [sendRequest] hands to the transport. *)
Definition build_request (c : Client) (url : string) (body : list byte) : Request :=
  {| req_method := "POST";
     req_url := url;
     req_header :=
       [("Content-Type", "application/json");
        ("Authorization", "ApiKey " +:+ APIKey (config c))];
     req_body := body |}.

(** [func (c *Client) sendRequest(url string, body []byte) error] *)
Definition sendRequest (c : Client) (url : string) (body : list byte)
    : M (option error) :=
  match http_NewRequest env "POST" url with
  | Some err => ret (Some (Errorf_w "error creating request: " (Some err)))
  | None =>
      let req := build_request c url body in
      do resp <- Do env req;
      match resp with
      | DoError err => ret (Some (Errorf_w "error sending request: " (Some err)))
      | DoResponse StatusCode Body =>
          if (400 <=? StatusCode)%Z then
            match Body with
            | inl _ =>
                ret (Some (errorString
                  ("elasticsearch error: status=" +:+ pretty StatusCode
                   +:+ ", failed to read response")))
            | inr respBody =>
                ret (Some (errorString
                  ("elasticsearch error: status=" +:+ pretty StatusCode
                   +:+ ", response=" +:+ string_of_bytes respBody)))
            end
          else ret None
      end
  end.

(** How the [for] loop of [IndexDocument] is left: by [return nil], or by
    [break] or a false loop condition, with the value of [lastErr]. *)
Inductive loop_exit : Type :=
| Returned
| Fell (lastErr : option error).

(** The loop [for attempt := 1; attempt <= maxRetries; attempt++], from
    the iteration [attempt] on.  [fuel] bounds the iterations that are
    left; [Z.to_nat maxRetries] of them is all the loop can make. *)
Fixpoint attempts (fuel : nat) (c : Client) (esURL : string) (body : list byte)
    (attempt : Z) (lastErr : option error) : M loop_exit :=
  match fuel with
  | O => ret (Fell lastErr)
  | S fuel' =>
      if (attempt <=? maxRetries)%Z then
        do err <- sendRequest c esURL body;
        match err with
        | Some e =>
            if (attempt <? maxRetries)%Z then
              Sleep retryInterval ;;
              attempts fuel' c esURL body (attempt + 1) (Some e)
            else ret (Fell (Some e))
        | None => ret Returned
        end
      else ret (Fell lastErr)
  end.

(** [fmt.Sprintf("%s/%s/_doc", c.config.URL, c.config.Index)] *)
Definition esURL (c : Client) : string :=
  URL (config c) +:+ "/" +:+ Index (config c) +:+ "/_doc".

(** [func (c *Client) IndexDocument(data map[string]interface{}) error] *)
Definition IndexDocument (c : Client) (data : gmap string jvalue)
    : M (option error) :=
  match json_Marshal env (VObj data) with
  | inl err => ret (Some (Errorf_w "error marshaling data: " (Some err)))
  | inr body =>
      do exit <- attempts (Z.to_nat maxRetries) c (esURL c) body 1 None;
      match exit with
      | Returned => ret None
      | Fell lastErr => ret (Some (Errorf_w "all retries failed: " lastErr))
      end
  end.

End WithEnv.

(** [failed_run send k w w' e]: starting in the world [w], [k ≥ 1] calls of
    [send] in a row, with one [Sleep retryInterval] between each two and
    none after the last, have all returned an error, the last of them [e],
    and have left the world [w']. *)
Inductive failed_run (send : M (option error))
    : nat → World → World → error → Prop :=
| failed_first (w w' : World) (e : error) :
    send w = (Some e, w') → failed_run send 1 w w' e
| failed_next (k : nat) (w w1 w' : World) (e1 e : error) :
    failed_run send k w w1 e1 →
    send (snd (Sleep retryInterval w1)) = (Some e, w') →
    failed_run send (S k) w w' e.

(** The world before anything has happened. *)
Definition start : World := {| calls := 0; trace := [] |}.

(** A transport that answers every request with status 500 and the body
    [down], behind libraries that never fail. *)
Definition always_500 : Env :=
  {| json_Marshal := λ _, inr (bytes_of_string "{}");
     json_Unmarshal := λ _, inr (VObj ∅);
     http_NewRequest := λ _ _, None;
     transport := λ _ _, DoResponse 500 (inr (bytes_of_string "down")) |}.

(** A configuration whose URL [http.NewRequest] cannot parse
    ([ES_URL="%zz"]: invalid URL escape), in front of a healthy service. *)
Definition bad_url : Env :=
  {| json_Marshal := λ _, inr (bytes_of_string "{}");
     json_Unmarshal := λ _, inr (VObj ∅);
     http_NewRequest := λ _ url,
       Some (errorString ("parse " +:+ url +:+ ": invalid URL escape"));
     transport := λ _ _, DoResponse 201 (inr []) |}.

Definition bad_url_client : Client :=
  {| config := {| URL := "%zz"; APIKey := "key"; Index := "docs" |} |}.

Definition docs_client : Client :=
  {| config := {| URL := "https://es:9200"; APIKey := "key"; Index := "docs" |} |}.

End Elasticsearch.

(* ===================================================================== *)
(** ** internal/worker/pool.go: processing one request *)
(* ===================================================================== *)

Module Worker.
Import Elasticsearch.

(** The inbound [*http.Request], as far as [processRequest] reads it: the
    method, and what [io.ReadAll(r.Body)] returns. *)
Record HttpRequest : Type := {
  Method : string;
  Body : error + list byte;
}.

(** The [http.ResponseWriter]: the header map, the status code once it has
    been written, and the bytes of the body. *)
Record ResponseWriter : Type := {
  Header : gmap string (list string);
  Status : option Z;
  Written : list byte;
}.

(** The writer a handler starts with. *)
Definition fresh : ResponseWriter :=
  {| Header := ∅; Status := None; Written := [] |}.

(** [w.Header().Set(key, value)] *)
Definition Header_Set (key value : string) (w : ResponseWriter) : ResponseWriter :=
  {| Header := <[key := [value]]> (Header w);
     Status := Status w; Written := Written w |}.

(** [w.Header().Del(key)] *)
Definition Header_Del (key : string) (w : ResponseWriter) : ResponseWriter :=
  {| Header := delete key (Header w);
     Status := Status w; Written := Written w |}.

(** [w.WriteHeader(code)]; only the first call counts. *)
Definition WriteHeader (code : Z) (w : ResponseWriter) : ResponseWriter :=
  match Status w with
  | Some _ => w
  | None => {| Header := Header w; Status := Some code; Written := Written w |}
  end.

(** [w.Write(b)]; writes the status 200 first if none was written. *)
Definition Write (b : list byte) (w : ResponseWriter) : ResponseWriter :=
  let w := WriteHeader 200 w in
  {| Header := Header w; Status := Status w; Written := Written w ++ b |}.

Definition StatusMethodNotAllowed : Z := 405.
Definition StatusBadRequest : Z := 400.

(** [http.Error(w, error, code)] *)
Definition http_Error (msg : string) (code : Z) (w : ResponseWriter) : ResponseWriter :=
  let w := Header_Del "Content-Length" w in
  let w := Header_Set "Content-Type" "text/plain; charset=utf-8" w in
  let w := Header_Set "X-Content-Type-Options" "nosniff" w in
  let w := WriteHeader code w in
  Write (bytes_of_string msg ++ [Byte.x0a]) w.

(** [Pool], as far as [processRequest] reads it.  [handler.Server.Start]
    installs the client before the listener starts. *)
Record Pool : Type := {
  es : Client;
}.

(** The name [encoding/json] gives the kind of a value in its type errors. *)
Definition json_kind (v : jvalue) : string :=
  match v with
  | VNull => "null"
  | VBool _ => "bool"
  | VNum _ => "number"
  | VStr _ => "string"
  | VArr _ => "array"
  | VObj _ => "object"
  end.

Section WithEnv.
Variable env : Env.

(** [json.NewEncoder(w).Encode(v)]: the JSON text of [v] and a newline;
    nothing is written when [v] cannot be marshalled, and the error is
    dropped by the caller. *)
Definition Encode (v : jvalue) (w : ResponseWriter) : ResponseWriter :=
  match json_Marshal env v with
  | inr text => Write (text ++ [Byte.x0a]) w
  | inl _ => w
  end.

(** [var data map[string]interface{}; json.Unmarshal(body, &data)].  The
    JSON literal [null] leaves [data] the nil map, which ranges and counts
    as the empty map; anything but an object or [null] is a type error. *)
Definition Unmarshal_map (body : list byte) : error + gmap string jvalue :=
  match json_Unmarshal env body with
  | inl err => inl err
  | inr VNull => inr ∅
  | inr (VObj m) => inr m
  | inr v =>
      inl (errorString ("json: cannot unmarshal " +:+ json_kind v
                        +:+ " into Go value of type map[string]interface {}"))
  end.

(** The two bodies [processRequest] answers with once the Document has
    been sanitized. *)
Definition warning_body (cleanData : gmap string jvalue) : jvalue :=
  VObj {[ "status" := VStr "warning";
          "message" := VStr "Request processed but failed to store in Elasticsearch";
          "data" := VObj cleanData ]}.

Definition success_body (cleanData : gmap string jvalue) : jvalue :=
  VObj {[ "status" := VStr "success";
          "message" := VStr "Data processed successfully";
          "data" := VObj cleanData ]}.

(** [func (p *Pool) processRequest(req *Request, log zerolog.Logger)],
    up to the deferred send on [req.Done]. *)
Definition process (p : Pool) (r : HttpRequest) (w : ResponseWriter)
    : M ResponseWriter :=
  let w := Header_Set "Content-Type" "application/json" w in
  if bool_decide (Method r ≠ "POST") then
    ret (http_Error "Only POST method is allowed" StatusMethodNotAllowed w)
  else
    match Body r with
    | inl err =>
        ret (http_Error ("Error reading body: " +:+ Error err) StatusBadRequest w)
    | inr body =>
        match Unmarshal_map body with
        | inl err =>
            ret (http_Error ("Error parsing JSON: " +:+ Error err) StatusBadRequest w)
        | inr data =>
            let cleanData := Sanitizer.SanitizeJSON data in
            do err <- IndexDocument env (es p) cleanData;
            match err with
            | Some _ => ret (Encode (warning_body cleanData) w)
            | None => ret (Encode (success_body cleanData) w)
            end
        end
    end.

(** [processRequest] with its [defer func() { req.Done <- true }()]. *)
Definition processRequest (p : Pool) (r : HttpRequest) (w : ResponseWriter)
    : M ResponseWriter :=
  do w' <- process p r w;
  emit EvDone ;;
  ret w'.

End WithEnv.

End Worker.

(* ===================================================================== *)
(** ** internal/worker/pool.go: the pool and its goroutines *)
(* ===================================================================== *)

Module Scheduling.

(** Where a goroutine that runs [Submit] stands.  A Work Item is named by
    the number of the goroutine that submits it. *)
Inductive submitter : Type :=
| Sending      (* at [p.requests <- req] *)
| Waiting      (* at [<-done] *)
| Finished.    (* [Submit] has returned *)

(** Where a goroutine that runs [worker] stands. *)
Inductive worker : Type :=
| Receiving                 (* at [for req := range p.requests] *)
| Processing (r : nat)      (* in the body of [processRequest] *)
| Signalling (r : nat).     (* at the deferred [req.Done <- true] *)

Record state : Type := {
  capacity : nat;                     (* [cap(p.requests)] *)
  requests : list nat;                (* the buffered channel, oldest first *)
  workers : list worker;              (* the goroutines [NewPool] started *)
  submitters : gmap nat submitter;    (* the goroutines inside [Submit] *)
}.

(** [func NewPool(numWorkers int) *Pool]: a channel of capacity
    [numWorkers] and [numWorkers] goroutines running [worker]. *)
Definition NewPool (numWorkers : nat) : state :=
  {| capacity := numWorkers;
     requests := [];
     workers := replicate numWorkers Receiving;
     submitters := ∅ |}.

Definition busy (wk : worker) : bool :=
  match wk with Receiving => false | _ => true end.

(** The Work Items that are being processed. *)
Definition in_flight (s : state) : nat := length (List.filter busy (workers s)).

Inductive label : Type :=
| Call (r : nat)              (* a handler goroutine enters [Submit] *)
| Send (r : nat)              (* [p.requests <- req] completes *)
| Receive (i r : nat)         (* worker [i] receives [req] from [p.requests] *)
| Processed (i r : nat)       (* worker [i] leaves the body of [processRequest] *)
| Done (i r : nat).           (* [req.Done <- true] meets [<-done]: [Submit] returns *)

(** One step of one goroutine.  A send on the buffered channel needs a free
    slot, a receive needs an element, and the send on the unbuffered [Done]
    channel needs its receiver. *)
Inductive step : state → label → state → Prop :=
| step_call (s : state) (r : nat) :
    submitters s !! r = None →
    step s (Call r)
      {| capacity := capacity s; requests := requests s; workers := workers s;
         submitters := <[r := Sending]> (submitters s) |}
| step_send (s : state) (r : nat) :
    submitters s !! r = Some Sending →
    length (requests s) < capacity s →
    step s (Send r)
      {| capacity := capacity s; requests := requests s ++ [r]; workers := workers s;
         submitters := <[r := Waiting]> (submitters s) |}
| step_receive (s : state) (i r : nat) (rest : list nat) :
    workers s !! i = Some Receiving →
    requests s = r :: rest →
    step s (Receive i r)
      {| capacity := capacity s; requests := rest;
         workers := <[i := Processing r]> (workers s);
         submitters := submitters s |}
| step_processed (s : state) (i r : nat) :
    workers s !! i = Some (Processing r) →
    step s (Processed i r)
      {| capacity := capacity s; requests := requests s;
         workers := <[i := Signalling r]> (workers s);
         submitters := submitters s |}
| step_done (s : state) (i r : nat) :
    workers s !! i = Some (Signalling r) →
    submitters s !! r = Some Waiting →
    step s (Done i r)
      {| capacity := capacity s; requests := requests s;
         workers := <[i := Receiving]> (workers s);
         submitters := <[r := Finished]> (submitters s) |}.

(** An execution and the steps it made, oldest first. *)
Inductive exec : state → list label → state → Prop :=
| exec_nil (s : state) : exec s [] s
| exec_snoc (s s1 s2 : state) (ls : list label) (l : label) :
    exec s ls s1 → step s1 l s2 → exec s (ls ++ [l]) s2.

(** A pool of one worker whose queue is full: Work Item 0 is queued, the
    worker has not received it yet, and the submitter of Work Item 1 is at
    its send. *)
Definition queue_full : state :=
  {| capacity := 1;
     requests := [0];
     workers := [Receiving];
     submitters := {[ 0 := Waiting; 1 := Sending ]} |}.

End Scheduling.

(* ===================================================================== *)
(** ** Vocabulary for the properties of the sanitizer *)
(* ===================================================================== *)

Module Pruning.

(** [pruned out inp]: [out] is [inp] with some keys and some sequence
    elements deleted, at any depth; nothing is added, changed or reordered. *)
#[warnings="-register-all"]
Inductive pruned : jvalue → jvalue → Prop :=
| pruned_same (v : jvalue) : pruned v v
| pruned_obj (out inp : gmap string jvalue) :
    (∀ k y, out !! k = Some y → ∃ x, inp !! k = Some x ∧ pruned y x) →
    pruned (VObj out) (VObj inp)
| pruned_arr (out kept inp : list jvalue) :
    sublist kept inp → Forall2 pruned out kept →
    pruned (VArr out) (VArr inp).

(** A value that is neither a Document nor a sequence. *)
Definition is_scalar (v : jvalue) : bool :=
  match v with VArr _ | VObj _ => false | _ => true end.

(** Nothing to prune below [v]: no Document there has a key ["."] or [".."]
    or a key with an empty string, null, empty Document or empty sequence,
    and no sequence there has a null, empty Document or empty sequence as an
    element. *)
Definition nothing_to_prune_below (v : jvalue) : Prop :=
  (∀ (m : gmap string jvalue) k x,
      occurs (VObj m) v → m !! k = Some x →
      k ≠ "." ∧ k ≠ ".." ∧ x ≠ VStr "" ∧ x ≠ VNull ∧ x ≠ VObj ∅ ∧ x ≠ VArr [])
  ∧ (∀ (l : list jvalue) x,
      occurs (VArr l) v → x ∈ l → x ≠ VNull ∧ x ≠ VObj ∅ ∧ x ≠ VArr []).

(** A Document with nothing to prune. *)
Definition clean (data : gmap string jvalue) : Prop :=
  nothing_to_prune_below (VObj data).

(** The loop of [SanitizeJSON] run over the pairs of [data] in the order
    [pairs]: Go visits the pairs of a map in an order of its choosing. *)
Definition SanitizeJSON_in_order (pairs : list (string * jvalue))
    : gmap string jvalue :=
  foldl (λ result kv,
           match Sanitizer.entry kv.1 kv.2 with
           | Some kept => <[kv.1 := kept]> result
           | None => result
           end) ∅ pairs.

End Pruning.

(* ===================================================================== *)
(** ** Vocabulary for the properties of the indexing client *)
(* ===================================================================== *)

Module Delivery.

(** Whether the [n]-th answer of the transport to [req] is a response with
    a status below 400. *)
Definition accepted (env : Env) (req : Request) (n : nat) : bool :=
  match transport env n req with
  | DoResponse StatusCode _ => (StatusCode <? 400)%Z
  | DoError _ => false
  end.

(** A service that is unreachable at first, then overloaded, then healthy:
    a connection error, a 503 and a 201. *)
Definition flaky : Env :=
  {| json_Marshal := λ _, inr (bytes_of_string "{}");
     json_Unmarshal := λ _, inr (VObj ∅);
     http_NewRequest := λ _ _, None;
     transport := λ n _,
       match n with
       | 0 => DoError (errorString "dial tcp: connection refused")
       | 1 => DoResponse 503 (inr (bytes_of_string "busy"))
       | _ => DoResponse 201 (inr [])
       end |}.

End Delivery.

(* ===================================================================== *)
(** ** Vocabulary for the properties of the worker *)
(* ===================================================================== *)

Module Intake.
Import Worker.

(** The message of the 400 answer of [processRequest] to a [POST], if its
    body cannot be read or cannot be decoded into a Document. *)
Definition input_error (env : Env) (r : HttpRequest) : option string :=
  match Body r with
  | inl err => Some ("Error reading body: " +:+ Error err)
  | inr body =>
      match Unmarshal_map env body with
      | inl err => Some ("Error parsing JSON: " +:+ Error err)
      | inr _ => None
      end
  end.

(** A caller whose bodies are JSON arrays, in front of a healthy service. *)
Definition sends_arrays : Env :=
  {| json_Marshal := λ _, inr (bytes_of_string "{}");
     json_Unmarshal := λ _, inr (VArr []);
     http_NewRequest := λ _ _, None;
     transport := λ _ _, DoResponse 201 (inr []) |}.

End Intake.

(* ===================================================================== *)
(** ** internal/logger/logger.go *)
(* ===================================================================== *)

Module Logger.

(** [logger.Config] *)
Record Config : Type := {
  Level : string;
  JSONFormat : bool;
}.

(** What [Initialize] leaves in the globals of zerolog: the global level
    and whether the output goes through a [ConsoleWriter]. *)
Record Globals (L : Type) : Type := {
  GlobalLevel : L;
  Console : bool;
}.
Arguments GlobalLevel {L} _.
Arguments Console {L} _.

Section Initialize.
Context {L : Type}.
(** [zerolog.InfoLevel] and [zerolog.ParseLevel] *)
Variable InfoLevel : L.
Variable ParseLevel : string → error + L.

(** [func Initialize(cfg Config) error] *)
Definition Initialize (cfg : Config) : Globals L * option error :=
  let level :=
    match ParseLevel (Level cfg) with
    | inl _ => InfoLevel
    | inr level => level
    end in
  ({| GlobalLevel := level; Console := negb (JSONFormat cfg) |}, None).

End Initialize.

Section Fields.
(** A Go value, as far as [fieldsToMap] looks at it: [as_string v] is the
    type assertion [v.(string)]. *)
Context {V : Type}.
Variable as_string : V → option string.

(** The loop [for i := 0; i < len(fields); i += 2] of [fieldsToMap]. *)
Fixpoint fields_loop (fields : list V) (result : gmap string V) : gmap string V :=
  match fields with
  | k :: v :: rest =>
      match as_string k with
      | Some key => fields_loop rest (<[key := v]> result)
      | None => fields_loop rest result
      end
  | _ => result
  end.

(** [func fieldsToMap(fields ...interface{}) map[string]interface{}]; [None]
    is the [nil] map. *)
Definition fieldsToMap (fields : list V) : option (gmap string V) :=
  if bool_decide (length fields `mod` 2 ≠ 0) then None
  else Some (fields_loop fields ∅).

(** The variadic arguments that log the pairs [kvs], given how a string
    becomes a Go value. *)
Definition flatten (of_string : string → V) (kvs : list (string * V)) : list V :=
  kvs ≫= λ kv, [of_string kv.1; kv.2].

End Fields.

End Logger.

(* ===================================================================== *)
(** ** internal/config/config.go and [getESConfig] of main.go *)
(* ===================================================================== *)

Module Config.
Import Elasticsearch.

(** [os.Getenv(key)] in the process environment [environ]: the value of the
    variable, and the empty string when it is not set. *)
Definition Getenv (environ : gmap string string) (key : string) : string :=
  default "" (environ !! key).

(** [config.LogConfig] *)
Record LogConfig : Type := {
  Level : string;
  JSONFormat : bool;
}.

(** [config.Config] *)
Record Config : Type := {
  Port : string;
  ES : ElasticsearchConfig;
  Log : LogConfig;
}.

(** How [%v] prints a [[]string]. *)
Definition fmt_strings (l : list string) : string :=
  "[" +:+ String.concat " " l +:+ "]".

(** [func loadESConfig()], which returns an [ElasticsearchConfig] or an
    error. *)
Definition loadESConfig (environ : gmap string string) : error + ElasticsearchConfig :=
  let url := Getenv environ "ES_URL" in
  let apiKey := Getenv environ "ES_API_KEY" in
  let index := Getenv environ "ES_INDEX" in
  let missingVars := [] in
  let missingVars :=
    if bool_decide (url = "") then missingVars ++ ["ES_URL"] else missingVars in
  let missingVars :=
    if bool_decide (apiKey = "") then missingVars ++ ["ES_API_KEY"] else missingVars in
  let missingVars :=
    if bool_decide (index = "") then missingVars ++ ["ES_INDEX"] else missingVars in
  if bool_decide (0 < length missingVars) then
    inl (errorString ("missing required environment variables: "
                      +:+ fmt_strings missingVars))
  else inr {| URL := url; APIKey := apiKey; Index := index |}.

(** [func loadLogConfig()], which returns a [LogConfig]. *)
Definition loadLogConfig (environ : gmap string string) : LogConfig :=
  let level := Getenv environ "LOG_LEVEL" in
  let level := if bool_decide (level = "") then "info" else level in
  let jsonFormat := bool_decide (Getenv environ "LOG_FORMAT" = "json") in
  {| Level := level; JSONFormat := jsonFormat |}.

Section Load.
Context {L : Type}.
Variable InfoLevel : L.
Variable ParseLevel : string → error + L.

(** [func Load()], which returns a [Config] or an error, with the globals
    [logger.Initialize] leaves. *)
Definition Load (environ : gmap string string)
    : Logger.Globals L * (error + Config) :=
  let '(globals, err) :=
    Logger.Initialize InfoLevel ParseLevel
      {| Logger.Level := Getenv environ "LOG_LEVEL";
         Logger.JSONFormat := bool_decide (Getenv environ "LOG_FORMAT" = "json") |} in
  match err with
  | Some err => (globals, inl (Errorf_w "failed to initialize logger: " (Some err)))
  | None =>
      match loadESConfig environ with
      | inl err => (globals, inl err)
      | inr esConfig =>
          let port := Getenv environ "PORT" in
          let port := if bool_decide (port = "") then "8080" else port in
          let logConfig := loadLogConfig environ in
          (globals, inr {| Port := port; ES := esConfig; Log := logConfig |})
      end
  end.

End Load.

(** [func getESConfig()] of [main.go], which returns an
    [ElasticsearchConfig] or an error. *)
Definition getESConfig (environ : gmap string string) : error + ElasticsearchConfig :=
  let url := Getenv environ "ES_URL" in
  let apiKey := Getenv environ "ES_API_KEY" in
  let index := Getenv environ "ES_INDEX" in
  if bool_decide (url = "") || bool_decide (apiKey = "") || bool_decide (index = "")
  then inl (errorString
              "missing required environment variables: ES_URL, ES_API_KEY, ES_INDEX")
  else inr {| URL := url; APIKey := apiKey; Index := index |}.

(** The three variables the indexing target is read from. *)
Definition required : list string := ["ES_URL"; "ES_API_KEY"; "ES_INDEX"].


End Config.

(* ===================================================================== *)
(** ** Vocabulary for the properties of the pool *)
(* ===================================================================== *)

Module Dispatch.
Import Scheduling.

(** The Work Items whose send on [p.requests] completed, and the ones a
    worker received, in the order of the execution. *)
Definition sent (ls : list label) : list nat :=
  omap (λ l, match l with Send r => Some r | _ => None end) ls.

Definition received (ls : list label) : list nat :=
  omap (λ l, match l with Receive _ r => Some r | _ => None end) ls.

(** Whether a step concerns the Work Item [r]. *)
Definition about (r : nat) (l : label) : bool :=
  match l with
  | Call r' | Send r' | Receive _ r' | Processed _ r' | Done _ r' => Nat.eqb r r'
  end.

(** The steps of a Work Item that worker [i] serves, from the call of
    [Submit] to its return. *)
Definition lifecycle (i r : nat) : list label :=
  [Call r; Send r; Receive i r; Processed i r; Done i r].

(** Whether a worker has the Work Item [r] in hand. *)
Definition holds (r : nat) (wk : worker) : bool :=
  match wk with
  | Receiving => false
  | Processing r' | Signalling r' => Nat.eqb r r'
  end.

(** How often [r] is in the queue. *)
Definition queued (r : nat) (q : list nat) : nat :=
  length (List.filter (Nat.eqb r) q).

(** Where the Work Item [r] stands after the steps [ls] that led to [s]:
    the steps about [r] so far, and where [r] is. *)
Inductive stage (s : state) (ls : list label) (r : nat) : Prop :=
| stage_unknown :
    submitters s !! r = None →
    List.filter (about r) ls = [] →
    queued r (requests s) = 0 →
    (∀ j wk, workers s !! j = Some wk → holds r wk = false) →
    stage s ls r
| stage_sending :
    submitters s !! r = Some Sending →
    List.filter (about r) ls = [Call r] →
    queued r (requests s) = 0 →
    (∀ j wk, workers s !! j = Some wk → holds r wk = false) →
    stage s ls r
| stage_queued :
    submitters s !! r = Some Waiting →
    List.filter (about r) ls = [Call r; Send r] →
    queued r (requests s) = 1 →
    (∀ j wk, workers s !! j = Some wk → holds r wk = false) →
    stage s ls r
| stage_processing (i : nat) :
    submitters s !! r = Some Waiting →
    List.filter (about r) ls = [Call r; Send r; Receive i r] →
    queued r (requests s) = 0 →
    workers s !! i = Some (Processing r) →
    (∀ j wk, workers s !! j = Some wk → j ≠ i → holds r wk = false) →
    stage s ls r
| stage_signalling (i : nat) :
    submitters s !! r = Some Waiting →
    List.filter (about r) ls = [Call r; Send r; Receive i r; Processed i r] →
    queued r (requests s) = 0 →
    workers s !! i = Some (Signalling r) →
    (∀ j wk, workers s !! j = Some wk → j ≠ i → holds r wk = false) →
    stage s ls r
| stage_finished (i : nat) :
    submitters s !! r = Some Finished →
    List.filter (about r) ls = lifecycle i r →
    queued r (requests s) = 0 →
    (∀ j wk, workers s !! j = Some wk → holds r wk = false) →
    stage s ls r.

End Dispatch.

(* ===================================================================== *)
(** ** main.go: [processRequest] of the older entry point *)
(* ===================================================================== *)

Module Legacy.
Import Elasticsearch Worker Config.

Definition maxRetries : Z := 3.
Definition retryInterval : Z := 1 * Second.
Definition StatusInternalServerError : Z := 500.

(** How the retry loop of [processRequest] is left: by the [return] of the
    success case, or by [break]. *)
Inductive loop_exit : Type :=
| Succeeded
| Exhausted.

Section WithEnv.
Variable env : Env.

(** The loop [for attempt := 1; attempt <= maxRetries; attempt++] of
    [processRequest], from the iteration [attempt] on; [lastErr] is only
    logged. *)
Fixpoint attempts (fuel : nat) (req2 : Request) (attempt : Z) : M loop_exit :=
  match fuel with
  | O => ret Exhausted
  | S fuel' =>
      if (attempt <=? maxRetries)%Z then
        do resp <- Do env req2;
        match resp with
        | DoError _ =>
            if (attempt <? maxRetries)%Z then
              Sleep retryInterval ;; attempts fuel' req2 (attempt + 1)
            else ret Exhausted
        | DoResponse StatusCode _ =>
            if (400 <=? StatusCode)%Z then
              if (attempt <? maxRetries)%Z then
                Sleep retryInterval ;; attempts fuel' req2 (attempt + 1)
              else ret Exhausted
            else ret Succeeded
        end
      else ret Exhausted
  end.

(** [var data map[string]interface{}; json.Unmarshal(body, &data)], keeping
    apart the [nil] map that the JSON literal [null] leaves ([VNull]) and a
    decoded object: [processRequest] encodes [data] itself in its answer. *)
Definition Unmarshal_data (body : list byte) : error + jvalue :=
  match json_Unmarshal env body with
  | inl err => inl err
  | inr VNull => inr VNull
  | inr (VObj m) => inr (VObj m)
  | inr v =>
      inl (errorString ("json: cannot unmarshal " +:+ json_kind v
                        +:+ " into Go value of type map[string]interface {}"))
  end.

(** The pairs a [range] over [data] visits. *)
Definition pairs_of (data : jvalue) : gmap string jvalue :=
  match data with VObj m => m | _ => ∅ end.

(** [func processRequest(req *Request)] of [main.go], up to the deferred
    send on [req.done]; [environ] is the environment of the process, which
    [getESConfig] reads on every request. *)
Definition process (environ : gmap string string) (r : HttpRequest)
    (w : ResponseWriter) : M ResponseWriter :=
  let w := Header_Set "Content-Type" "application/json" w in
  if bool_decide (Method r ≠ "POST") then
    ret (http_Error "Only POST method is allowed" StatusMethodNotAllowed w)
  else
    match Body r with
    | inl err =>
        ret (http_Error ("Error reading body: " +:+ Error err) StatusBadRequest w)
    | inr body =>
        match Unmarshal_data body with
        | inl err =>
            ret (http_Error ("Error parsing JSON: " +:+ Error err) StatusBadRequest w)
        | inr data =>
            let cleanData := Main.sanitizeJSON (pairs_of data) in
            match json_Marshal env (VObj cleanData) with
            | inl err =>
                ret (http_Error ("Error processing JSON: " +:+ Error err)
                       StatusInternalServerError w)
            | inr cleanBody =>
                match getESConfig environ with
                | inl _ =>
                    ret (http_Error "Internal server error"
                           StatusInternalServerError w)
                | inr esConfig =>
                    let esURL := URL esConfig +:+ "/" +:+ Index esConfig +:+ "/_doc" in
                    match http_NewRequest env "POST" esURL with
                    | Some _ =>
                        ret (http_Error "Internal server error"
                               StatusInternalServerError w)
                    | None =>
                        let req2 :=
                          build_request {| config := esConfig |} esURL cleanBody in
                        do exit <- attempts (Z.to_nat maxRetries) req2 1;
                        match exit with
                        | Succeeded =>
                            ret (Encode env
                                   (VObj {[ "status" := VStr "success";
                                            "message" := VStr "Data processed successfully";
                                            "data" := data ]}) w)
                        | Exhausted =>
                            ret (Encode env
                                   (VObj {[ "status" := VStr "warning";
                                            "message" :=
                                              VStr "Request processed but failed to store in Elasticsearch";
                                            "data" := data ]}) w)
                        end
                    end
                end
            end
        end
    end.

(** [processRequest] with its [defer func() { req.done <- true }()]. *)
Definition processRequest (environ : gmap string string) (r : HttpRequest)
    (w : ResponseWriter) : M ResponseWriter :=
  do w' <- process environ r w;
  emit EvDone ;;
  ret w'.

End WithEnv.

(** A caller that posts [{"name": ""}] to a healthy service. *)
Definition posts_empty_name : Env :=
  {| json_Marshal := λ _, inr (bytes_of_string "{}");
     json_Unmarshal := λ _, inr (VObj {[ "name" := VStr "" ]});
     http_NewRequest := λ _ _, None;
     transport := λ _ _, DoResponse 201 (inr []) |}.

End Legacy.

(* ===================================================================== *)
(** * Properties *)
(* ===================================================================== *)

(** ** Recursion through maps and slices *)

Section JsonInduction.

Lemma jsize_obj_lookup (m : gmap string jvalue) (k : string) (x : jvalue) :
  m !! k = Some x → jsize x < jsize (VObj m).
Proof.
  intros Hk. cbn [jsize].
  rewrite (map_fold_delete_L _ _ k x m); [lia | | exact Hk].
  intros; lia.
Qed.

Lemma jsize_arr_elem (l : list jvalue) (x : jvalue) :
  x ∈ l → jsize x < jsize (VArr l).
Proof.
  cbn [jsize]. induction 1 as [x l | x y l _ IH]; cbn [foldr]; lia.
Qed.

(** Structural induction on a value, with the hypothesis available for
    every value stored in a map and every element of a slice. *)
Lemma jvalue_nested_ind (P : jvalue → Prop) :
  P VNull →
  (∀ b, P (VBool b)) →
  (∀ f, P (VNum f)) →
  (∀ s, P (VStr s)) →
  (∀ l, Forall P l → P (VArr l)) →
  (∀ m, map_Forall (λ _ x, P x) m → P (VObj m)) →
  ∀ v, P v.
Proof.
  intros Hnull Hbool Hnum Hstr Harr Hobj v.
  remember (jsize v) as n eqn:Hn. revert v Hn.
  induction n as [n IH] using lt_wf_ind. intros v ->.
  destruct v as [| b | f | s | l | m]; auto.
  - apply Harr, Forall_forall. intros x Hx.
    exact (IH _ (jsize_arr_elem l x Hx) x eq_refl).
  - apply Hobj. intros k x Hk.
    exact (IH _ (jsize_obj_lookup m k x Hk) x eq_refl).
Qed.

End JsonInduction.

(** ** The sanitizer of pkg/sanitizer *)

Section SanitizerFacts.
Import Sanitizer.

Lemma SanitizeJSON_lookup (data : gmap string jvalue) (k : string) :
  SanitizeJSON data !! k = data !! k ≫= entry k.
Proof. apply map_lookup_imap. Qed.

(** [SanitizeJSON] as the loop is written: start from the empty map and,
    for every pair of [data], store what the iteration keeps. *)
Lemma SanitizeJSON_loop (data : gmap string jvalue) :
  SanitizeJSON data
  = map_fold (λ key value result,
                match entry key value with
                | Some kept => <[key := kept]> result
                | None => result
                end) ∅ data.
Proof. reflexivity. Qed.

Lemma entry_unfold (key : string) (value : jvalue) :
  entry key value =
    if key_dropped key value then None
    else match value with
         | VStr v => if bool_decide (v ≠ "") then Some value else None
         | _ => elem value
         end.
Proof.
  unfold key_dropped.
  destruct value; cbn [entry];
    repeat (case_match; try reflexivity).
Qed.

Lemma elem_obj (v : gmap string jvalue) :
  elem (VObj v) =
    if bool_decide (0 < size (SanitizeJSON v)) then Some (VObj (SanitizeJSON v)) else None.
Proof. reflexivity. Qed.

Lemma elem_arr (v : list jvalue) :
  elem (VArr v) =
    if bool_decide (0 < length (sanitizeArray v)) then Some (VArr (sanitizeArray v)) else None.
Proof. reflexivity. Qed.

(** What [elem] can return. *)
Lemma elem_Some_inv (value y : jvalue) :
  elem value = Some y →
  (∃ v, value = VObj v ∧ y = VObj (SanitizeJSON v) ∧ 0 < size (SanitizeJSON v))
  ∨ (∃ v, value = VArr v ∧ y = VArr (sanitizeArray v) ∧ 0 < length (sanitizeArray v))
  ∨ (y = value ∧ is_nil value = false
     ∧ (∀ v, value ≠ VObj v) ∧ (∀ v, value ≠ VArr v)).
Proof.
  destruct value as [| b | f | s | l | m].
  1-4: cbn; intros [= <-]; right; right; repeat split; congruence.
  - rewrite elem_arr. case_bool_decide; [|done].
    intros [= <-]. right; left. eauto.
  - rewrite elem_obj. case_bool_decide; [|done].
    intros [= <-]. left. eauto.
Qed.

(** What [entry] can return. *)
Lemma entry_Some_inv (key : string) (value y : jvalue) :
  entry key value = Some y →
  key ≠ "." ∧ key ≠ ".." ∧ elem value = Some y
  ∧ is_empty_string y = false ∧ is_nil y = false.
Proof.
  rewrite entry_unfold. unfold key_dropped.
  destruct (bool_decide (key = ".")) eqn:H1; [done|].
  destruct (bool_decide (key = "..")) eqn:H2; [done|].
  apply bool_decide_eq_false in H1, H2. cbn [orb].
  case_match; [done|].
  destruct value as [| b | f | s | l | m].
  - done.
  - cbn. intros [= <-]. done.
  - cbn. intros [= <-]. done.
  - clear H. case_bool_decide as Hs; [|done]. intros [= <-].
    repeat split; try done. cbn. by apply bool_decide_eq_false_2.
  - intros He. repeat split; try done.
    all: apply elem_Some_inv in He as [(?&?&->&?)|[(?&?&->&?)|(->&?&?&?)]]; done.
  - intros He. repeat split; try done.
    all: apply elem_Some_inv in He as [(?&?&->&?)|[(?&?&->&?)|(->&?&?&?)]]; done.
Qed.

(** Conversely, a key that is neither ["."] nor [".."] keeps whatever
    [elem] keeps, provided the value kept is not the empty string. *)
Lemma entry_of_elem (key : string) (value y : jvalue) :
  key ≠ "." → key ≠ ".." → elem value = Some y →
  is_empty_string value = false → entry key value = Some y.
Proof.
  intros H1 H2 He Hs. rewrite entry_unfold. unfold key_dropped.
  rewrite !bool_decide_eq_false_2 by done. cbn [orb].
  rewrite Hs. cbn [orb].
  assert (is_nil value = false) as ->.
  { destruct value; try done. }
  rewrite andb_false_r.
  destruct value; try done.
  cbn in Hs. apply bool_decide_eq_false in Hs.
  rewrite bool_decide_eq_true_2 by done. cbn in He. congruence.
Qed.

(** A value that [entry] keeps is kept unchanged by a second pass, as soon
    as [elem] keeps it unchanged. *)
Lemma entry_fixed_of_elem (key : string) (value y : jvalue) :
  (∀ y', elem value = Some y' → elem y' = Some y') →
  entry key value = Some y → entry key y = Some y.
Proof.
  intros IH (H1 & H2 & He & Hs & _)%entry_Some_inv.
  apply entry_of_elem; auto.
Qed.

Lemma sanitizeArray_fixed_of (l : list jvalue) :
  Forall (λ x, ∀ y, elem x = Some y → elem y = Some y) l →
  sanitizeArray (sanitizeArray l) = sanitizeArray l.
Proof.
  unfold sanitizeArray.
  induction 1 as [| x l Hx _ IH]; [done|].
  cbn [omap list_omap]. destruct (elem x) as [y|] eqn:He; [|done].
  cbn [omap list_omap]. rewrite (Hx y eq_refl). by f_equal.
Qed.

Lemma SanitizeJSON_fixed_of (m : gmap string jvalue) :
  map_Forall (λ _ x, ∀ y, elem x = Some y → elem y = Some y) m →
  SanitizeJSON (SanitizeJSON m) = SanitizeJSON m.
Proof.
  intros IH. apply map_eq. intros k.
  rewrite !SanitizeJSON_lookup.
  destruct (m !! k) as [x|] eqn:Hk; [|done]. cbn.
  destruct (entry k x) as [y|] eqn:He; [|done]. cbn.
  eapply entry_fixed_of_elem; [|exact He]. exact (IH k x Hk).
Qed.

Lemma elem_fixed (value y : jvalue) :
  elem value = Some y → elem y = Some y.
Proof.
  revert y. induction value as [| b | f | s | l IH | m IH] using jvalue_nested_ind;
    intros y He.
  1-4: by apply elem_Some_inv in He as [(?&?&_)|[(?&?&_)|(->&?&_)]].
  - apply elem_Some_inv in He as [(?&?&_)|[(v&[= <-]&->&Hlen)|(_&_&_&Habs)]];
      [done| |by destruct (Habs l)].
    rewrite elem_arr, sanitizeArray_fixed_of by done.
    by rewrite bool_decide_eq_true_2.
  - apply elem_Some_inv in He as [(v&[= <-]&->&Hlen)|[(?&?&_)|(_&_&Habs&_)]];
      [|done|by destruct (Habs m)].
    rewrite elem_obj, SanitizeJSON_fixed_of by done.
    by rewrite bool_decide_eq_true_2.
Qed.

Lemma entry_fixed (key : string) (value y : jvalue) :
  entry key value = Some y → entry key y = Some y.
Proof. apply entry_fixed_of_elem. intros y'. apply elem_fixed. Qed.

Lemma sanitizeArray_idempotent (arr : list jvalue) :
  sanitizeArray (sanitizeArray arr) = sanitizeArray arr.
Proof.
  apply sanitizeArray_fixed_of, Forall_forall. intros x _ y. apply elem_fixed.
Qed.

End SanitizerFacts.

(** ** Idempotence *)

(** C3.  Sanitizing twice is sanitizing once: for every Document [x],
    [SanitizeJSON (SanitizeJSON x) = SanitizeJSON x]. *)
Theorem SanitizeJSON_idempotent (x : gmap string jvalue) :
  Sanitizer.SanitizeJSON (Sanitizer.SanitizeJSON x) = Sanitizer.SanitizeJSON x.
Proof.
  apply SanitizeJSON_fixed_of. intros k v _ y. apply elem_fixed.
Qed.

(** ** Values inside a sanitized result *)

Section Occurrences.
Import Sanitizer.

Lemma elem_obj_inv (value : jvalue) (m : gmap string jvalue) :
  elem value = Some (VObj m) →
  ∃ v, value = VObj v ∧ m = SanitizeJSON v ∧ 0 < size m.
Proof.
  intros [(v&->&[= ->]&?)|[(?&?&?&_)|(<-&_&Habs&_)]]%elem_Some_inv;
    [eauto|done|by destruct (Habs m)].
Qed.

Lemma elem_arr_inv (value : jvalue) (l : list jvalue) :
  elem value = Some (VArr l) →
  ∃ v, value = VArr v ∧ l = sanitizeArray v ∧ 0 < length l.
Proof.
  intros [(?&?&?&_)|[(v&->&[= ->]&?)|(<-&_&_&Habs)]]%elem_Some_inv;
    [done|eauto|by destruct (Habs l)].
Qed.

Lemma SanitizeJSON_lookup_Some (data : gmap string jvalue) (k : string) (y : jvalue) :
  SanitizeJSON data !! k = Some y ↔ ∃ x, data !! k = Some x ∧ entry k x = Some y.
Proof.
  rewrite SanitizeJSON_lookup. destruct (data !! k) as [x|]; cbn.
  - split; [eauto|]. by intros (? & [= <-] & ?).
  - split; [done|]. by intros (? & ? & _).
Qed.

Lemma sanitizeArray_lookup_Some (arr : list jvalue) (i : nat) (y : jvalue) :
  sanitizeArray arr !! i = Some y → ∃ j x, arr !! j = Some x ∧ elem x = Some y.
Proof.
  intros Hi. apply list_elem_of_lookup_2 in Hi.
  apply list_elem_of_omap in Hi as (x & Hx & He).
  apply list_elem_of_lookup_1 in Hx as [j Hj]. eauto.
Qed.

(** Whatever occurs in a value kept by [elem] was itself kept by [elem],
    from a value occurring in the input. *)
Lemma occurs_elem_origin (value y v : jvalue) :
  elem value = Some y → occurs v y →
  ∃ v0, occurs v0 value ∧ elem v0 = Some v.
Proof.
  intros He Hocc. revert value He.
  induction Hocc as [| m k y1 Hk _ IH | l i y1 Hi _ IH]; intros value He.
  - exists value. split; [constructor | done].
  - apply elem_obj_inv in He as (m0 & -> & -> & _).
    apply SanitizeJSON_lookup_Some in Hk as (x1 & Hx1 & He1).
    apply entry_Some_inv in He1 as (_ & _ & He1 & _).
    destruct (IH _ He1) as (v0 & Hv0 & Hev0).
    exists v0. split; [|done]. by eapply occurs_key.
  - apply elem_arr_inv in He as (l0 & -> & -> & _).
    apply sanitizeArray_lookup_Some in Hi as (j & x1 & Hx1 & He1).
    destruct (IH _ He1) as (v0 & Hv0 & Hev0).
    exists v0. split; [|done]. by eapply occurs_elem.
Qed.

(** The same for the root Document, to which [SanitizeJSON] is applied
    without the emptiness test. *)
Lemma occurs_SanitizeJSON_origin (data : gmap string jvalue) (v : jvalue) :
  occurs v (VObj (SanitizeJSON data)) →
  v = VObj (SanitizeJSON data)
  ∨ ∃ v0, occurs v0 (VObj data) ∧ elem v0 = Some v.
Proof.
  inversion 1 as [| m k y Hk Hocc |]; subst; [by left|right].
  apply SanitizeJSON_lookup_Some in Hk as (x & Hx & He).
  apply entry_Some_inv in He as (_ & _ & He & _).
  destruct (occurs_elem_origin _ _ _ He Hocc) as (v0 & Hv0 & Hev0).
  exists v0. split; [|done]. by eapply occurs_key.
Qed.

Lemma elem_not_empty (value y : jvalue) :
  elem value = Some y → y ≠ VNull ∧ y ≠ VObj ∅ ∧ y ≠ VArr [].
Proof.
  intros He. repeat split; intros ->.
  - apply elem_Some_inv in He as [(?&?&?&_)|[(?&?&?&_)|(<-&?&_)]]; done.
  - apply elem_obj_inv in He as (?&_&_&Hsz). by rewrite map_size_empty in Hsz; lia.
  - apply elem_arr_inv in He as (?&_&_&Hlen). cbn in Hlen; lia.
Qed.

End Occurrences.

(** ** Falsy values *)



(** ** Emptiness propagation *)

(** C6.  A nested Document or sequence whose sanitization is empty is absent
    from the output: under a key, the key is dropped from the parent
    Document; as a sequence element, it is dropped from the elements that
    survive, the others keeping their order.  Hence no empty Document and no
    empty sequence occurs anywhere below the root of a sanitized Document. *)
Theorem emptiness_propagates (value : jvalue) :
  Sanitizer.sanitizes_to_empty value →
  (∀ (data : gmap string jvalue) key,
      data !! key = Some value → Sanitizer.SanitizeJSON data !! key = None)
  ∧ (∀ l1 l2, Sanitizer.sanitizeArray (l1 ++ value :: l2)
              = Sanitizer.sanitizeArray l1 ++ Sanitizer.sanitizeArray l2)
  ∧ (∀ (data : gmap string jvalue) key y v,
       Sanitizer.SanitizeJSON data !! key = Some y → occurs v y →
       v ≠ VObj ∅ ∧ v ≠ VArr []).
Proof.
  intros Hempty.
  assert (Sanitizer.elem value = None) as He.
  { destruct value as [| | | | l | m]; try done; cbn in Hempty.
    - rewrite elem_arr, Hempty. done.
    - rewrite elem_obj, Hempty. done. }
  split; [|split].
  - intros data key Hk. rewrite SanitizeJSON_lookup, Hk. cbn.
    rewrite entry_unfold. case_match; [done|].
    by destruct value.
  - intros l1 l2. unfold Sanitizer.sanitizeArray.
    rewrite omap_app. cbn [omap list_omap]. by rewrite He.
  - intros data key y v (x & _ & Hx)%SanitizeJSON_lookup_Some Hocc.
    apply entry_Some_inv in Hx as (_ & _ & Hx & _).
    destruct (occurs_elem_origin _ _ _ Hx Hocc) as (v0 & _ & Hv0).
    apply elem_not_empty in Hv0. tauto.
Qed.

Lemma emptiness_propagates_witness :
  Sanitizer.SanitizeJSON
    {[ "nested" := VObj {[ "lastModifiedDate" := VNull ]}; "name" := VStr "x" ]}
    !! "nested" = None.
Proof.
  assert (Sanitizer.sanitizes_to_empty (VObj {[ "lastModifiedDate" := VNull ]}))
    as Hempty by (vm_compute; reflexivity).
  apply (proj1 (emptiness_propagates _ Hempty)).
  reflexivity.
Defined.

(** ** Sequences under a key *)

(** C4, as the code has it.  The claim lets scalar elements of a sequence go
    through the filter of keyed scalars, which drops the empty string;
    [sanitizeArray] has no [string] case, so an empty-string element is
    kept, and with it the key of the sequence. *)
Lemma empty_string_element_kept :
  Sanitizer.sanitizeArray [VStr ""] = [VStr ""]
  ∧ Sanitizer.SanitizeJSON {[ "tags" := VArr [VStr ""] ]} !! "tags"
    = Some (VArr [VStr ""])
  ∧ Sanitizer.SanitizeJSON {[ "tags" := VStr "" ]} !! "tags" = None.
Proof. repeat split; reflexivity. Qed.

(** C4, amended.  When a key other than ["."] and [".."] maps to a sequence,
    every element is sanitized: a nested Document by [SanitizeJSON] and a
    nested sequence by [sanitizeArray], each kept only if the result is
    non-empty; a null element is dropped; every other scalar element, the
    empty string included, is kept unchanged.  The pair survives, with the
    sanitized sequence, exactly when that sequence is non-empty. *)
Theorem sequence_elements_sanitized
    (data : gmap string jvalue) (key : string) (v : list jvalue) :
  data !! key = Some (VArr v) →
  key ≠ "." → key ≠ ".." →
  Sanitizer.SanitizeJSON data !! key
  = (if bool_decide (0 < length (Sanitizer.sanitizeArray v))
     then Some (VArr (Sanitizer.sanitizeArray v)) else None)
  ∧ Sanitizer.sanitizeArray v
    = omap (λ x, match x with
                 | VObj d =>
                     if bool_decide (0 < size (Sanitizer.SanitizeJSON d))
                     then Some (VObj (Sanitizer.SanitizeJSON d)) else None
                 | VArr a =>
                     if bool_decide (0 < length (Sanitizer.sanitizeArray a))
                     then Some (VArr (Sanitizer.sanitizeArray a)) else None
                 | VNull => None
                 | VStr _ | VBool _ | VNum _ => Some x
                 end) v.
Proof.
  intros Hk H1 H2. split.
  - rewrite SanitizeJSON_lookup, Hk. cbn [mbind option_bind].
    rewrite entry_unfold. unfold Sanitizer.key_dropped.
    rewrite !bool_decide_eq_false_2 by done. cbn [orb is_empty_string is_nil].
    rewrite andb_false_r. apply elem_arr.
  - unfold Sanitizer.sanitizeArray. apply list_omap_ext.
    apply Forall2_same_length_lookup. split; [done|].
    intros i x y Hx Hy. assert (x = y) as <- by congruence.
    by destruct x.
Qed.

Lemma sequence_elements_sanitized_witness :
  Sanitizer.SanitizeJSON
    {[ "tags" := VArr [VStr ""; VNull; VObj ∅; VArr [VNull]; VBool false] ]} !! "tags"
  = Some (VArr [VStr ""; VBool false]).
Proof.
  refine (eq_trans
    (proj1 (sequence_elements_sanitized
       {[ "tags" := VArr [VStr ""; VNull; VObj ∅; VArr [VNull]; VBool false] ]}
       "tags" [VStr ""; VNull; VObj ∅; VArr [VNull]; VBool false] _ _ _)) _).
  - reflexivity.
  - discriminate.
  - discriminate.
  - reflexivity.
Defined.

(** ** The invariant of a sanitized Document *)

(** C1, as the code has it.  A ["lastModifiedDate"] key whose value is
    neither the empty string nor null is not always kept: an empty nested
    Document under it is dropped like under any other key. *)
Lemma lastModifiedDate_empty_document_dropped :
  VObj ∅ ≠ VStr "" ∧ VObj ∅ ≠ VNull
  ∧ Sanitizer.SanitizeJSON {[ "lastModifiedDate" := VObj ∅ ]} !! "lastModifiedDate"
    = None.
Proof. split; [discriminate | split; [discriminate | reflexivity]]. Qed.

(** C1, amended.  Every Document [m] in the sanitized result, at any depth
    and also inside sequences, is the sanitization of a Document [m0] of the
    input and has no key ["."] or [".."], no key ["lastModifiedDate"] whose
    value in [m0] was the empty string or null, and no key whose value is an
    empty string, null, an empty Document or an empty sequence.  A
    ["lastModifiedDate"] key of [m0] with any other value is treated like
    every other key: kept unchanged when the value is a non-empty string, a
    boolean or a number, and kept with the sanitized value when the value is
    a Document or sequence that does not sanitize to empty. *)
Theorem sanitized_invariant (data m : gmap string jvalue) :
  occurs (VObj m) (VObj (Sanitizer.SanitizeJSON data)) →
  ∃ m0 : gmap string jvalue,
    occurs (VObj m0) (VObj data)
    ∧ m = Sanitizer.SanitizeJSON m0
    ∧ (∀ k x, m !! k = Some x →
         k ≠ "." ∧ k ≠ ".."
         ∧ x ≠ VStr "" ∧ x ≠ VNull ∧ x ≠ VObj ∅ ∧ x ≠ VArr []
         ∧ (k = "lastModifiedDate" →
            m0 !! k ≠ Some (VStr "") ∧ m0 !! k ≠ Some VNull))
    ∧ (∀ v, m0 !! "lastModifiedDate" = Some v → v ≠ VStr "" → v ≠ VNull →
         m !! "lastModifiedDate"
         = match v with
           | VObj d =>
               if bool_decide (0 < size (Sanitizer.SanitizeJSON d))
               then Some (VObj (Sanitizer.SanitizeJSON d)) else None
           | VArr a =>
               if bool_decide (0 < length (Sanitizer.sanitizeArray a))
               then Some (VArr (Sanitizer.sanitizeArray a)) else None
           | _ => Some v
           end).
Proof.
  intros Hocc.
  assert (∃ m0 : gmap string jvalue,
             occurs (VObj m0) (VObj data) ∧ m = Sanitizer.SanitizeJSON m0)
    as (m0 & Hm0 & ->).
  { apply occurs_SanitizeJSON_origin in Hocc as [[= ->] | (v0 & Hv0 & He)].
    - exists data. split; [constructor | done].
    - apply elem_obj_inv in He as (m0 & -> & -> & _). eauto. }
  exists m0. split; [done|]. split; [done|]. split.
  - intros k x (x0 & Hx0 & He)%SanitizeJSON_lookup_Some.
    pose proof (entry_Some_inv _ _ _ He) as (H1 & H2 & Hel & Hs & Hn).
    pose proof (elem_not_empty _ _ Hel) as (? & ? & ?).
    do 2 (split; [done|]). split; [by intros ->|]. do 3 (split; [done|]).
    intros ->. rewrite Hx0.
    split; intros [= ->]; rewrite entry_unfold in He; done.
  - intros v Hv Hs Hn. rewrite SanitizeJSON_lookup, Hv. cbn [mbind option_bind].
    rewrite entry_unfold. unfold Sanitizer.key_dropped. cbn [orb bool_decide].
    destruct v as [| b | f | s | l | d]; try done.
    assert (s ≠ "") as Hs' by congruence. cbn [is_empty_string is_nil].
    rewrite (bool_decide_eq_false_2 (s = "")), (bool_decide_eq_true_2 (s ≠ "")) by done.
    reflexivity.
Qed.

Lemma sanitized_invariant_witness :
  ∃ m0 : gmap string jvalue,
    occurs (VObj m0)
      (VObj {[ "items" := VArr [VObj {[ "lastModifiedDate" := VStr "2024-01-01";
                                        ".." := VBool true; "note" := VStr "" ]}] ]})
    ∧ ({[ "lastModifiedDate" := VStr "2024-01-01" ]} : gmap string jvalue)
      = Sanitizer.SanitizeJSON m0.
Proof.
  destruct (sanitized_invariant
    {[ "items" := VArr [VObj {[ "lastModifiedDate" := VStr "2024-01-01";
                                ".." := VBool true; "note" := VStr "" ]}] ]}
    {[ "lastModifiedDate" := VStr "2024-01-01" ]}) as (m0 & H1 & H2 & _).
  - eapply (occurs_key _ _ "items"); [reflexivity|].
    eapply (occurs_elem _ _ 0); [reflexivity|]. constructor.
  - exists m0. split; assumption.
Defined.

(** ** The sanitizer inlined in main.go *)

Section InlinedSanitizer.

Lemma Main_sanitizeJSON_lookup (data : gmap string jvalue) (k : string) :
  Main.sanitizeJSON data !! k = data !! k ≫= Main.entry k.
Proof. apply map_lookup_imap. Qed.

Lemma Main_entry_unfold (key : string) (value : jvalue) :
  Main.entry key value =
    if Sanitizer.key_dropped key value then None
    else match value with
         | VObj v =>
             if bool_decide (0 < size (Main.sanitizeJSON v))
             then Some (VObj (Main.sanitizeJSON v)) else None
         | VArr v =>
             if bool_decide (0 < length (Main.sanitizeArray v))
             then Some (VArr (Main.sanitizeArray v)) else None
         | VStr v => if bool_decide (v ≠ "") then Some value else None
         | _ => if negb (is_nil value) then Some value else None
         end.
Proof.
  unfold Sanitizer.key_dropped.
  destruct value; cbn [Main.entry];
    repeat (case_match; try reflexivity).
Qed.



(** Sanitizing with the library what [main.go] has sanitized gives what the
    library gives on the input: the library only prunes more. *)
Lemma library_after_inlined_below (value : jvalue) :
  (∀ key, Main.entry key value ≫= Sanitizer.entry key = Sanitizer.entry key value)
  ∧ Sanitizer.elem (Main.elem value) = Sanitizer.elem value.
Proof.
  induction value as [| b | f | s | l IH | m IH] using jvalue_nested_ind.
  1-4: split; [|done]; intros key;
       match goal with
       | |- Main.entry key ?v ≫= _ = _ =>
           assert (Main.entry key v = Sanitizer.entry key v) as ->
             by (by rewrite Main_entry_unfold, entry_unfold);
           destruct (Sanitizer.entry key v) as [y|] eqn:He; cbn;
           [by apply (entry_fixed key v) | done]
       end.
  - assert (Sanitizer.sanitizeArray (Main.sanitizeArray l) = Sanitizer.sanitizeArray l)
      as Heq.
    { unfold Sanitizer.sanitizeArray, Main.sanitizeArray.
      induction IH as [| x l [_ Hx] _ IHl]; [done|].
      cbn [map omap list_omap]. by rewrite Hx, IHl. }
    split.
    + intros key. rewrite Main_entry_unfold, (entry_unfold key (VArr l)).
      destruct (Sanitizer.key_dropped key (VArr l)) eqn:Hd; [done|].
      case_bool_decide as Hlen.
      * cbn [mbind option_bind]. rewrite entry_unfold.
        unfold Sanitizer.key_dropped in *.
        cbn [is_empty_string is_nil] in *. rewrite Hd.
        by rewrite !elem_arr, Heq.
      * destruct l; [done|]. cbn in Hlen. lia.
    + cbn [Main.elem]. fold (Main.sanitizeArray l). by rewrite !elem_arr, Heq.
  - assert (Sanitizer.SanitizeJSON (Main.sanitizeJSON m) = Sanitizer.SanitizeJSON m)
      as Heq.
    { apply map_eq. intros k.
      rewrite !SanitizeJSON_lookup, Main_sanitizeJSON_lookup.
      destruct (m !! k) as [x|] eqn:Hk; [|done]. cbn.
      apply (IH k x Hk). }
    split.
    + intros key. rewrite Main_entry_unfold, (entry_unfold key (VObj m)).
      destruct (Sanitizer.key_dropped key (VObj m)) eqn:Hd; [done|].
      case_bool_decide as Hsz.
      * cbn [mbind option_bind]. rewrite entry_unfold.
        unfold Sanitizer.key_dropped in *.
        cbn [is_empty_string is_nil] in *. rewrite Hd.
        by rewrite !elem_obj, Heq.
      * assert (Main.sanitizeJSON m = ∅) as Hempty
          by (apply map_size_empty_iff; lia).
        rewrite Hempty in Heq. cbn [mbind option_bind].
        rewrite elem_obj, <- Heq. done.
    + cbn [Main.elem]. fold (Main.sanitizeJSON m). by rewrite !elem_obj, Heq.
Qed.

Lemma library_after_inlined (data : gmap string jvalue) :
  Sanitizer.SanitizeJSON (Main.sanitizeJSON data) = Sanitizer.SanitizeJSON data.
Proof.
  apply map_eq. intros k.
  rewrite !SanitizeJSON_lookup, Main_sanitizeJSON_lookup.
  destruct (data !! k) as [x|] eqn:Hk; [|done]. cbn.
  apply library_after_inlined_below.
Qed.

End InlinedSanitizer.




(** ** The indexing client *)

Section ClientFacts.
Import Elasticsearch.
Variable env : Env.

(** More fuel than [maxRetries] iterations changes nothing: the loop is
    left by [return] or [break] at the latest in the iteration
    [maxRetries]. *)
Lemma attempts_fuel (n : nat) (c : Client) (url : string) (body : list byte)
    (attempt : Z) (lastErr : option error) (w : World) :
  (1 ≤ attempt)%Z →
  attempts env (Z.to_nat (maxRetries + 1 - attempt) + n) c url body attempt lastErr w
  = attempts env (Z.to_nat (maxRetries + 1 - attempt)) c url body attempt lastErr w.
Proof.
  remember (Z.to_nat (maxRetries + 1 - attempt)) as k eqn:Hk.
  revert attempt lastErr w Hk.
  induction k as [|k IH]; intros attempt lastErr w Hk Hpos.
  - assert ((attempt <=? maxRetries)%Z = false) as Hle by
      (apply Z.leb_gt; unfold maxRetries in *; lia).
    destruct n; cbn [attempts Nat.add]; [done|]. by rewrite Hle.
  - cbn [attempts Nat.add].
    destruct (attempt <=? maxRetries)%Z; [|done].
    unfold bind. destruct (sendRequest env c url body w) as [[e|] w1]; [|done].
    destruct (attempt <? maxRetries)%Z; [|done].
    destruct (Sleep retryInterval w1) as [[] w2].
    apply IH; unfold maxRetries in *; lia.
Qed.

(** The four ways [sendRequest] ends. *)
Lemma sendRequest_cases (c : Client) (url : string) (body : list byte) (w : World) :
  let req := build_request c url body in
  let sent := {| calls := S (calls w); trace := trace w ++ [EvDo req] |} in
  (∃ StatusCode Body,
      http_NewRequest env "POST" url = None
      ∧ transport env (calls w) req = DoResponse StatusCode Body
      ∧ (StatusCode < 400)%Z
      ∧ sendRequest env c url body w = (None, sent))
  ∨ (∃ err,
      http_NewRequest env "POST" url = Some err
      ∧ sendRequest env c url body w
        = (Some (wrapError ("error creating request: " +:+ Error err) err), w))
  ∨ (∃ err,
      http_NewRequest env "POST" url = None
      ∧ transport env (calls w) req = DoError err
      ∧ sendRequest env c url body w
        = (Some (wrapError ("error sending request: " +:+ Error err) err), sent))
  ∨ (∃ StatusCode Body,
      http_NewRequest env "POST" url = None
      ∧ transport env (calls w) req = DoResponse StatusCode Body
      ∧ (400 ≤ StatusCode)%Z
      ∧ sendRequest env c url body w
        = (Some (errorString
             ("elasticsearch error: status=" +:+ pretty StatusCode +:+
              match Body with
              | inr respBody => ", response=" +:+ string_of_bytes respBody
              | inl _ => ", failed to read response"
              end)), sent)).
Proof.
  intros req sent. unfold sendRequest.
  destruct (http_NewRequest env "POST" url) as [err|] eqn:Hnew.
  { right; left. exists err. done. }
  fold req. unfold bind, Do. fold sent.
  destruct (transport env (calls w) req) as [err | StatusCode Body] eqn:Hdo.
  { right; right; left. exists err. done. }
  destruct (400 <=? StatusCode)%Z eqn:Hst.
  - apply Z.leb_le in Hst. right; right; right.
    exists StatusCode, Body. by destruct Body.
  - apply Z.leb_gt in Hst. left. exists StatusCode, Body. done.
Qed.

(** The loop of [IndexDocument], attempt by attempt. *)
Lemma IndexDocument_run (c : Client) (data : gmap string jvalue)
    (body : list byte) (w : World) :
  json_Marshal env (VObj data) = inr body →
  let send := sendRequest env c (esURL c) body in
  (∃ w', send w = (None, w') ∧ IndexDocument env c data w = (None, w'))
  ∨ (∃ k w1 e1 w',
        k < 3 ∧ failed_run send k w w1 e1
        ∧ send (snd (Sleep retryInterval w1)) = (None, w')
        ∧ IndexDocument env c data w = (None, w'))
  ∨ (∃ e w',
        failed_run send 3 w w' e
        ∧ IndexDocument env c data w
          = (Some (wrapError ("all retries failed: " +:+ Error e) e), w')).
Proof.
  intros Hbody send. unfold IndexDocument. rewrite Hbody.
  change (Z.to_nat maxRetries) with 3. unfold bind. cbn [attempts].
  change (1 <=? maxRetries)%Z with true. change (1 <? maxRetries)%Z with true.
  change (1 + 1 <=? maxRetries)%Z with true. change (1 + 1 <? maxRetries)%Z with true.
  change (1 + 1 + 1 <=? maxRetries)%Z with true.
  change (1 + 1 + 1 <? maxRetries)%Z with false.
  cbv beta iota. unfold bind. fold send.
  destruct (send w) as [[e1|] w1] eqn:H1; [|left; eauto].
  destruct (Sleep retryInterval w1) as [[] s1] eqn:Hs1.
  assert (s1 = snd (Sleep retryInterval w1)) as -> by (by rewrite Hs1).
  fold send.
  destruct (send (snd (Sleep retryInterval w1))) as [[e2|] w2] eqn:H2.
  2:{ right; left. exists 1, w1, e1, w2. repeat split; try done; [lia|].
      by constructor. }
  destruct (Sleep retryInterval w2) as [[] s2] eqn:Hs2.
  assert (s2 = snd (Sleep retryInterval w2)) as -> by (by rewrite Hs2).
  fold send.
  assert (failed_run send 2 w w2 e2) as Hrun2
    by (eapply failed_next; [by constructor | done]).
  destruct (send (snd (Sleep retryInterval w2))) as [[e3|] w3] eqn:H3.
  2:{ right; left. exists 2, w2, e2, w3. repeat split; try done. lia. }
  right; right. exists e3, w3. split; [|done].
  eapply failed_next; done.
Qed.

End ClientFacts.

(** Retry exhaustion: a service that always answers 500 is asked exactly
    three times, with a pause of one second after the first and after the
    second answer, and the error names the last answer. *)
Lemma always_500_exhausts_retries :
  let req := Elasticsearch.build_request Elasticsearch.docs_client
               "https://es:9200/docs/_doc" (bytes_of_string "{}") in
  Elasticsearch.IndexDocument Elasticsearch.always_500 Elasticsearch.docs_client ∅
    Elasticsearch.start
  = (Some (wrapError
             "all retries failed: elasticsearch error: status=500, response=down"
             (errorString "elasticsearch error: status=500, response=down")),
     {| calls := 3;
        trace := [EvDo req; EvSleep 1000000000; EvDo req; EvSleep 1000000000;
                  EvDo req] |}).
Proof. reflexivity. Qed.

(** C2, as the code has it.  The claim lets an attempt fail only when the
    transport call errors or the response status is at least 400.  With a
    URL that [http.NewRequest] rejects, every attempt fails before the
    transport is called: three attempts, two delays, no transport call, and
    a service that would have answered 201. *)
Lemma attempt_fails_without_transport_call :
  is_Some (fst (Elasticsearch.sendRequest Elasticsearch.bad_url
                  Elasticsearch.bad_url_client "%zz/docs/_doc"
                  (bytes_of_string "{}") Elasticsearch.start))
  ∧ ¬ (match transport Elasticsearch.bad_url 0
               (Elasticsearch.build_request Elasticsearch.bad_url_client
                  "%zz/docs/_doc" (bytes_of_string "{}")) with
       | DoError _ => True
       | DoResponse StatusCode _ => (400 ≤ StatusCode)%Z
       end)
  ∧ Elasticsearch.IndexDocument Elasticsearch.bad_url Elasticsearch.bad_url_client
      ∅ Elasticsearch.start
    = (Some (wrapError
         "all retries failed: error creating request: parse %zz/docs/_doc: invalid URL escape"
         (wrapError "error creating request: parse %zz/docs/_doc: invalid URL escape"
            (errorString "parse %zz/docs/_doc: invalid URL escape"))),
       {| calls := 0; trace := [EvSleep 1000000000; EvSleep 1000000000] |}).
Proof.
  split; [by eexists|]. split; [|reflexivity].
  cbn. lia.
Qed.

(** C2, amended.  [IndexDocument] makes at most 3 attempts.  It returns
    [nil] as soon as one attempt succeeds, without a further attempt or
    delay.  An attempt fails iff the request cannot be built, the transport
    call errors, or the response status is at least 400.  One delay of
    exactly [retryInterval] = 1 second separates two consecutive attempts,
    and none follows the last.  When all 3 attempts fail, the error returned
    wraps the error of the last attempt under ["all retries failed: "]; that
    error is the request-building error, the transport error, or the status
    code with the response body when it could be read. *)
Theorem IndexDocument_retry_policy
    (env : Env) (c : Elasticsearch.Client) (data : gmap string jvalue)
    (body : list byte) (w : World) :
  json_Marshal env (VObj data) = inr body →
  let send := Elasticsearch.sendRequest env c (Elasticsearch.esURL c) body in
  let req := Elasticsearch.build_request c (Elasticsearch.esURL c) body in
  ((∃ w', send w = (None, w')
          ∧ Elasticsearch.IndexDocument env c data w = (None, w'))
   ∨ (∃ k w1 e1 w',
         k < 3 ∧ Elasticsearch.failed_run send k w w1 e1
         ∧ send (snd (Sleep Elasticsearch.retryInterval w1)) = (None, w')
         ∧ Elasticsearch.IndexDocument env c data w = (None, w'))
   ∨ (∃ e w',
         Elasticsearch.failed_run send 3 w w' e
         ∧ Elasticsearch.IndexDocument env c data w
           = (Some (wrapError ("all retries failed: " +:+ Error e) e), w')))
  ∧ Elasticsearch.retryInterval = 1000000000%Z
  ∧ (∀ w0,
       is_Some (fst (send w0))
       ↔ is_Some (http_NewRequest env "POST" (Elasticsearch.esURL c))
         ∨ match transport env (calls w0) req with
           | DoError _ => True
           | DoResponse StatusCode _ => (400 ≤ StatusCode)%Z
           end)
  ∧ (∀ w0 e, fst (send w0) = Some e →
       (∃ err, http_NewRequest env "POST" (Elasticsearch.esURL c) = Some err
               ∧ e = wrapError ("error creating request: " +:+ Error err) err)
       ∨ (∃ err, transport env (calls w0) req = DoError err
                 ∧ e = wrapError ("error sending request: " +:+ Error err) err)
       ∨ (∃ StatusCode respBody,
             transport env (calls w0) req = DoResponse StatusCode (inr respBody)
             ∧ e = errorString ("elasticsearch error: status=" +:+ pretty StatusCode
                                +:+ ", response=" +:+ string_of_bytes respBody))
       ∨ (∃ StatusCode err,
             transport env (calls w0) req = DoResponse StatusCode (inl err)
             ∧ e = errorString ("elasticsearch error: status=" +:+ pretty StatusCode
                                +:+ ", failed to read response"))).
Proof.
  intros Hbody send req.
  split; [exact (IndexDocument_run env c data body w Hbody)|].
  split; [reflexivity|]. split.
  - intros w0. subst send req.
    destruct (sendRequest_cases env c (Elasticsearch.esURL c) body w0)
      as [(s & b & Hnew & Hdo & Hlt & ->)
         |[(err & Hnew & ->)
          |[(err & Hnew & Hdo & ->)
           |(s & b & Hnew & Hdo & Hge & ->)]]]; cbn [fst].
    + rewrite Hnew, Hdo. split; [by intros [? [=]]|].
      intros [[? [=]] | ?]; lia.
    + rewrite Hnew. split; [eauto|]. by eexists.
    + rewrite Hdo. split; [eauto|]. by eexists.
    + rewrite Hdo. split; [eauto|]. by eexists.
  - intros w0 e. subst send req.
    destruct (sendRequest_cases env c (Elasticsearch.esURL c) body w0)
      as [(s & b & Hnew & Hdo & Hlt & ->)
         |[(err & Hnew & ->)
          |[(err & Hnew & Hdo & ->)
           |(s & b & Hnew & Hdo & Hge & ->)]]]; cbn [fst]; intros [= <-].
    + left. eauto.
    + right; left. eauto.
    + destruct b as [err | respBody].
      * right; right; right. eauto.
      * right; right; left. eauto.
Qed.

Lemma IndexDocument_retry_policy_witness :
  Elasticsearch.failed_run
    (Elasticsearch.sendRequest Elasticsearch.always_500 Elasticsearch.docs_client
       (Elasticsearch.esURL Elasticsearch.docs_client) (bytes_of_string "{}"))
    3 Elasticsearch.start
    (snd (Elasticsearch.IndexDocument Elasticsearch.always_500
            Elasticsearch.docs_client ∅ Elasticsearch.start))
    (errorString "elasticsearch error: status=500, response=down").
Proof.
  destruct (IndexDocument_retry_policy Elasticsearch.always_500
              Elasticsearch.docs_client ∅ (bytes_of_string "{}")
              Elasticsearch.start eq_refl)
    as [[(w' & Hsend & _) | [(k & w1 & e1 & w' & _ & _ & _ & Hres) | (e & w' & Hrun & Hres)]] _].
  - vm_compute in Hsend. discriminate Hsend.
  - vm_compute in Hres. discriminate Hres.
  - assert (Hres' := Hres). vm_compute in Hres'.
    injection Hres' as _ He _. rewrite Hres, He. exact Hrun.
Defined.

(** ** Processing one request *)

Section WorkerFacts.
Import Elasticsearch Worker.
Variable env : Env.

(** Once the body has been read and decoded, [process] sanitizes, indexes
    and answers; nothing on the way depends on the Document being empty. *)
Lemma process_decoded (p : Pool) (r : HttpRequest) (w : ResponseWriter)
    (body : list byte) (data : gmap string jvalue) (world : World) :
  Method r = "POST" → Body r = inr body → Unmarshal_map env body = inr data →
  process env p r w world
  = (Encode env
       (match fst (IndexDocument env (es p) (Sanitizer.SanitizeJSON data) world) with
        | Some _ => warning_body (Sanitizer.SanitizeJSON data)
        | None => success_body (Sanitizer.SanitizeJSON data)
        end)
       (Header_Set "Content-Type" "application/json" w),
     snd (IndexDocument env (es p) (Sanitizer.SanitizeJSON data) world)).
Proof.
  intros Hm Hb Hd. unfold process.
  rewrite bool_decide_eq_false_2 by (by rewrite Hm; intros []).
  rewrite Hb, Hd. unfold bind.
  destruct (IndexDocument env (es p) (Sanitizer.SanitizeJSON data) world)
    as [[err|] world']; reflexivity.
Qed.

Lemma Encode_fresh_status (v : jvalue) (w : ResponseWriter) (text : list byte) :
  json_Marshal env v = inr text → Status w = None →
  Status (Encode env v w) = Some 200%Z
  ∧ Written (Encode env v w) = Written w ++ text ++ [Byte.x0a]
  ∧ Header (Encode env v w) = Header w.
Proof.
  intros Hv Hs. unfold Encode, Write, WriteHeader. rewrite Hv, Hs. done.
Qed.

End WorkerFacts.

(** C5.  When [IndexDocument] returns an error (its attempts are used up),
    the worker answers the caller with status 200, not an error status, and
    the JSON text of [{"status":"warning","message":"Request processed but
    failed to store in Elasticsearch","data": d}] followed by a newline,
    where [d] is the sanitized Document, not the decoded input. *)
Theorem delivery_failure_is_a_warning
    (env : Env) (p : Worker.Pool) (r : Worker.HttpRequest)
    (w : Worker.ResponseWriter) (body text : list byte)
    (data : gmap string jvalue) (err : error) (world world' : World) :
  Worker.Method r = "POST" →
  Worker.Body r = inr body →
  Worker.Unmarshal_map env body = inr data →
  Elasticsearch.IndexDocument env (Worker.es p) (Sanitizer.SanitizeJSON data) world
  = (Some err, world') →
  Worker.Status w = None →
  json_Marshal env
    (VObj {[ "status" := VStr "warning";
             "message" := VStr "Request processed but failed to store in Elasticsearch";
             "data" := VObj (Sanitizer.SanitizeJSON data) ]}) = inr text →
  ∃ w' : Worker.ResponseWriter,
    Worker.processRequest env p r w world
    = (w', {| calls := calls world'; trace := trace world' ++ [EvDone] |})
    ∧ Worker.Status w' = Some 200%Z
    ∧ Worker.Written w' = Worker.Written w ++ text ++ [Byte.x0a]
    ∧ Worker.Header w' !! "Content-Type" = Some ["application/json"].
Proof.
  intros Hm Hb Hd Hidx Hs Htext.
  unfold Worker.processRequest, bind.
  rewrite (process_decoded env p r w body data world Hm Hb Hd), Hidx.
  cbn [fst snd]. unfold Worker.warning_body. eexists. split; [reflexivity|].
  destruct (Encode_fresh_status env _
              (Worker.Header_Set "Content-Type" "application/json" w) text Htext Hs)
    as (H1 & H2 & H3).
  split; [exact H1|]. split; [exact H2|].
  rewrite H3. cbn. apply lookup_insert_eq.
Qed.

Lemma delivery_failure_is_a_warning_witness :
  ∃ w' : Worker.ResponseWriter,
    fst (Worker.processRequest Elasticsearch.always_500
           {| Worker.es := Elasticsearch.docs_client |}
           {| Worker.Method := "POST"; Worker.Body := inr [] |}
           Worker.fresh Elasticsearch.start) = w'
    ∧ Worker.Status w' = Some 200%Z.
Proof.
  destruct (delivery_failure_is_a_warning Elasticsearch.always_500
              {| Worker.es := Elasticsearch.docs_client |}
              {| Worker.Method := "POST"; Worker.Body := inr [] |}
              Worker.fresh [] (bytes_of_string "{}") ∅
              (wrapError
                 "all retries failed: elasticsearch error: status=500, response=down"
                 (errorString "elasticsearch error: status=500, response=down"))
              Elasticsearch.start
              (snd (Elasticsearch.IndexDocument Elasticsearch.always_500
                      Elasticsearch.docs_client ∅ Elasticsearch.start)))
    as (w' & Hrun & Hstatus & _).
  - reflexivity.
  - reflexivity.
  - reflexivity.
  - vm_compute. reflexivity.
  - reflexivity.
  - reflexivity.
  - exists w'. split; [by rewrite Hrun | exact Hstatus].
Defined.

(** C10.  A body that decodes to the empty object, to [null], or to a
    Document all of whose keys are stripped gives the empty Document, which
    is not dropped: [IndexDocument] is called with it, and it is the [data]
    field of the answer, whether the answer is a success or a warning. *)
Theorem empty_root_document_is_indexed
    (env : Env) (p : Worker.Pool) (r : Worker.HttpRequest)
    (w : Worker.ResponseWriter) (body : list byte) (j : jvalue) (world : World) :
  Worker.Method r = "POST" →
  Worker.Body r = inr body →
  json_Unmarshal env body = inr j →
  j = VObj ∅ ∨ j = VNull ∨ (∃ m, j = VObj m ∧ Sanitizer.SanitizeJSON m = ∅) →
  Worker.processRequest env p r w world
  = (Worker.Encode env
       (VObj {[ "status" :=
                  VStr (match fst (Elasticsearch.IndexDocument env (Worker.es p) ∅ world) with
                        | Some _ => "warning"
                        | None => "success"
                        end);
                "message" :=
                  VStr (match fst (Elasticsearch.IndexDocument env (Worker.es p) ∅ world) with
                        | Some _ => "Request processed but failed to store in Elasticsearch"
                        | None => "Data processed successfully"
                        end);
                "data" := VObj ∅ ]})
       (Worker.Header_Set "Content-Type" "application/json" w),
     {| calls := calls (snd (Elasticsearch.IndexDocument env (Worker.es p) ∅ world));
        trace := trace (snd (Elasticsearch.IndexDocument env (Worker.es p) ∅ world))
                 ++ [EvDone] |}).
Proof.
  intros Hm Hb Hj Hcases.
  assert (∃ data, Worker.Unmarshal_map env body = inr data
                  ∧ Sanitizer.SanitizeJSON data = ∅) as (data & Hd & Hclean).
  { unfold Worker.Unmarshal_map. rewrite Hj.
    destruct Hcases as [-> | [-> | (m & -> & Hm0)]].
    - exists ∅. done.
    - exists ∅. done.
    - exists m. done. }
  unfold Worker.processRequest, bind.
  rewrite (process_decoded env p r w body data world Hm Hb Hd), Hclean.
  by destruct (fst (Elasticsearch.IndexDocument env (Worker.es p) ∅ world)).
Qed.

Lemma empty_root_document_is_indexed_witness :
  calls (snd (Worker.processRequest Elasticsearch.always_500
                {| Worker.es := Elasticsearch.docs_client |}
                {| Worker.Method := "POST"; Worker.Body := inr [] |}
                Worker.fresh Elasticsearch.start))
  = calls (snd (Elasticsearch.IndexDocument Elasticsearch.always_500
                  Elasticsearch.docs_client ∅ Elasticsearch.start)).
Proof.
  rewrite (empty_root_document_is_indexed Elasticsearch.always_500
             {| Worker.es := Elasticsearch.docs_client |}
             {| Worker.Method := "POST"; Worker.Body := inr [] |}
             Worker.fresh [] (VObj ∅) Elasticsearch.start);
    [reflexivity | reflexivity | reflexivity | reflexivity | by left].
Defined.

(** ** The pool and its goroutines *)

Section PoolFacts.
Import Scheduling.

Lemma step_shape (s s' : state) (l : label) :
  step s l s' →
  capacity s' = capacity s
  ∧ length (workers s') = length (workers s)
  ∧ (length (requests s) ≤ capacity s → length (requests s') ≤ capacity s).
Proof.
  destruct 1 as [s r Hr | s r Hr Hlen | s i r rest Hi Hq | s i r Hi | s i r Hi Hr];
    cbn; rewrite ?length_insert, ?length_app; cbn;
    repeat split; try lia.
  rewrite Hq. cbn. lia.
Qed.

Lemma in_flight_le (s : state) : in_flight s ≤ length (workers s).
Proof. unfold in_flight. apply List.filter_length_le. Qed.

Lemma exec_shape (n : nat) (ls : list label) (s : state) :
  exec (NewPool n) ls s →
  capacity s = n ∧ length (workers s) = n ∧ length (requests s) ≤ n.
Proof.
  remember (NewPool n) as s0 eqn:Hs0.
  induction 1 as [s | s s1 s2 ls l _ IH Hstep]; subst.
  - cbn. rewrite length_replicate. repeat split; lia.
  - destruct (IH eq_refl) as (Hc & Hw & Hq).
    destruct (step_shape _ _ _ Hstep) as (Hc' & Hw' & Hq').
    repeat split; try congruence. rewrite Hc in Hq'. by apply Hq'.
Qed.

(** A goroutine at [p.requests <- req] stays there until its own send
    completes, which needs a free slot. *)
Lemma step_sending (s s' : state) (l : label) (r : nat) :
  submitters s !! r = Some Sending →
  step s l s' →
  submitters s' !! r = Some Sending
  ∨ (l = Send r ∧ length (requests s) < capacity s
     ∧ submitters s' !! r = Some Waiting).
Proof.
  intros Hr.
  destruct 1 as [s r' Hr' | s r' Hr' Hlen | s i r' rest Hi Hq | s i r' Hi | s i r' Hi Hr'];
    cbn; try (by left).
  - left. rewrite lookup_insert_ne; [done|congruence].
  - destruct (decide (r' = r)) as [->|Hne].
    + right. by rewrite lookup_insert_eq.
    + left. by rewrite lookup_insert_ne.
  - left. rewrite lookup_insert_ne; [done|congruence].
Qed.

(** [Submit] has returned only if a worker left [processRequest] for that
    Work Item and then met the submitter on [Done]. *)
Lemma exec_finished (s0 s : state) (ls : list label) :
  submitters s0 = ∅ → (∀ i r, workers s0 !! i ≠ Some (Signalling r)) →
  exec s0 ls s →
  (∀ r, submitters s !! r = Some Finished →
        ∃ i l1 l2 l3, ls = l1 ++ Processed i r :: l2 ++ Done i r :: l3)
  ∧ (∀ i r, workers s !! i = Some (Signalling r) →
            ∃ l1 l2, ls = l1 ++ Processed i r :: l2).
Proof.
  intros Hsub Hwk.
  induction 1 as [s | s s1 s2 ls l _ IH Hstep].
  - split.
    + intros r. by rewrite Hsub, lookup_empty.
    + intros i r Hi. by destruct (Hwk i r).
  - destruct (IH Hsub Hwk) as [IHf IHs].
    assert (∀ r, submitters s1 !! r = Some Finished →
                 ∃ i l1 l2 l3, ls ++ [l] = l1 ++ Processed i r :: l2 ++ Done i r :: l3)
      as Hold_f.
    { intros r (i & l1 & l2 & l3 & ->)%IHf. exists i, l1, l2, (l3 ++ [l]).
      by rewrite <- !app_assoc, <- !app_comm_cons, <- !app_assoc. }
    assert (∀ i r, workers s1 !! i = Some (Signalling r) →
                   ∃ l1 l2, ls ++ [l] = l1 ++ Processed i r :: l2)
      as Hold_s.
    { intros i r (l1 & l2 & ->)%IHs. exists l1, (l2 ++ [l]).
      by rewrite <- !app_assoc, <- !app_comm_cons. }
    destruct Hstep as [s1 r' Hr' | s1 r' Hr' Hlen | s1 i' r' rest Hi Hq
                      | s1 i' r' Hi | s1 i' r' Hi Hr']; cbn; split; try done.
    + intros r. destruct (decide (r' = r)) as [->|Hne].
      * by rewrite lookup_insert_eq.
      * rewrite lookup_insert_ne by done. apply Hold_f.
    + intros r. destruct (decide (r' = r)) as [->|Hne].
      * by rewrite lookup_insert_eq.
      * rewrite lookup_insert_ne by done. apply Hold_f.
    + intros i r [(_ & [=] & _) | (Hne & Hi')]%list_lookup_insert_Some. eauto.
    + intros i r [(-> & [= ->] & _) | (Hne & Hi')]%list_lookup_insert_Some; eauto.
    + intros r. destruct (decide (r' = r)) as [->|Hne].
      * intros _. destruct (IHs i' r Hi) as (l1 & l2 & ->).
        exists i', l1, l2, []. by rewrite <- !app_assoc, <- !app_comm_cons.
      * rewrite lookup_insert_ne by done. apply Hold_f.
    + intros i r [(_ & [=] & _) | (Hne & Hi')]%list_lookup_insert_Some. eauto.
Qed.

End PoolFacts.

Lemma queue_full_reached :
  Scheduling.exec (Scheduling.NewPool 1)
    [Scheduling.Call 0; Scheduling.Send 0; Scheduling.Call 1] Scheduling.queue_full.
Proof.
  assert (∃ s, Scheduling.exec (Scheduling.NewPool 1)
                 ((([] ++ [Scheduling.Call 0]) ++ [Scheduling.Send 0])
                  ++ [Scheduling.Call 1]) s
               ∧ s = Scheduling.queue_full) as (s & Hexec & ->); [|exact Hexec].
  eexists. split.
  - eapply Scheduling.exec_snoc; [eapply Scheduling.exec_snoc;
      [eapply Scheduling.exec_snoc; [apply Scheduling.exec_nil|] |] |].
    + apply (Scheduling.step_call _ 0). reflexivity.
    + apply (Scheduling.step_send _ 0); [reflexivity | cbn; lia].
    + apply (Scheduling.step_call _ 1). reflexivity.
  - vm_compute. reflexivity.
Qed.

(** C9.  A pool built with [NewPool n] has an intake queue of capacity [n]
    and [n] workers, so that at most [n] Work Items sit in the queue and at
    most [n] are being processed, however many goroutines are inside
    [Submit].  A submitter whose send finds the queue full keeps waiting at
    the send (no step rejects it) and can complete it as soon as the queue
    has a free slot.  [Submit] has returned for a Work Item only after a
    worker has left [processRequest] for it and signalled on [Done]. *)
Theorem pool_admission (n : nat) (ls : list Scheduling.label) (s : Scheduling.state) :
  Scheduling.exec (Scheduling.NewPool n) ls s →
  Scheduling.capacity s = n
  ∧ length (Scheduling.requests s) ≤ n
  ∧ length (Scheduling.workers s) = n
  ∧ Scheduling.in_flight s ≤ n
  ∧ (∀ r, Scheduling.submitters s !! r = Some Scheduling.Sending →
       (length (Scheduling.requests s) < n →
        ∃ s', Scheduling.step s (Scheduling.Send r) s')
       ∧ (∀ l s', Scheduling.step s l s' →
            Scheduling.submitters s' !! r = Some Scheduling.Sending
            ∨ (l = Scheduling.Send r
               ∧ length (Scheduling.requests s) < n
               ∧ Scheduling.submitters s' !! r = Some Scheduling.Waiting)))
  ∧ (∀ r, Scheduling.submitters s !! r = Some Scheduling.Finished →
       ∃ i l1 l2 l3,
         ls = l1 ++ Scheduling.Processed i r :: l2 ++ Scheduling.Done i r :: l3).
Proof.
  intros Hexec.
  destruct (exec_shape n ls s Hexec) as (Hc & Hw & Hq).
  split; [done|]. split; [done|]. split; [done|].
  split; [rewrite <- Hw; apply in_flight_le|]. split.
  - intros r Hr. split.
    + intros Hfree. eexists. apply Scheduling.step_send; [done|lia].
    + intros l s' Hstep. rewrite <- Hc. by eapply step_sending.
  - apply (exec_finished (Scheduling.NewPool n) s ls); [done| |done].
    intros i r. cbn. intros [[=] _]%lookup_replicate.
Qed.

Lemma pool_admission_witness :
  Scheduling.exec (Scheduling.NewPool 1)
    [Scheduling.Call 0; Scheduling.Send 0; Scheduling.Call 1] Scheduling.queue_full
  ∧ ∀ l s', Scheduling.step Scheduling.queue_full l s' →
      Scheduling.submitters s' !! 1 = Some Scheduling.Sending.
Proof.
  pose proof queue_full_reached as Hexec.
  split; [exact Hexec|].
  intros l s' Hstep.
  destruct (pool_admission 1 _ _ Hexec) as (_ & _ & _ & _ & Hblock & _).
  destruct (proj2 (Hblock 1 eq_refl) l s' Hstep) as [Hs | (_ & Hfull & _)];
    [exact Hs | cbn in Hfull; lia].
Defined.

(* ===================================================================== *)
(** * Further properties of the code *)
(* ===================================================================== *)

(** ** The sanitizer only deletes *)

Section PruningFacts.
Import Sanitizer Pruning.

Lemma sanitizeArray_pruned_of (l : list jvalue) :
  Forall (λ x, ∀ y, elem x = Some y → pruned y x) l →
  ∃ kept, sublist kept l ∧ Forall2 pruned (sanitizeArray l) kept.
Proof.
  unfold sanitizeArray.
  induction 1 as [| x l Hx _ (kept & Hsub & Hall)].
  - exists []. split; constructor.
  - cbn [omap list_omap]. destruct (elem x) as [y|] eqn:He.
    + exists (x :: kept). split; [by constructor|]. constructor; auto.
    + exists kept. split; [by constructor|done].
Qed.

Lemma elem_pruned (value y : jvalue) : elem value = Some y → pruned y value.
Proof.
  revert y. induction value as [| b | f | s | l IH | m IH] using jvalue_nested_ind;
    intros y He.
  1-4: apply elem_Some_inv in He as [(?&?&_)|[(?&?&_)|(->&_)]]; try done; constructor.
  - rewrite elem_arr in He. case_bool_decide; [|done]. injection He as <-.
    destruct (sanitizeArray_pruned_of l IH) as (kept & Hsub & Hall).
    by econstructor.
  - rewrite elem_obj in He. case_bool_decide; [|done]. injection He as <-.
    apply pruned_obj. intros k y (x & Hx & Hy)%SanitizeJSON_lookup_Some.
    exists x. split; [done|].
    apply entry_Some_inv in Hy as (_ & _ & Hy & _). exact (IH k x Hx y Hy).
Qed.

End PruningFacts.

(** X1.  Sanitization only deletes: the result of [SanitizeJSON] is the
    input with keys and sequence elements removed, at any depth, and the
    same holds for [sanitizeArray].  No key is added, no surviving scalar is
    changed, and the elements that survive keep their order. *)
Theorem sanitize_only_deletes (data : gmap string jvalue) (arr : list jvalue) :
  Pruning.pruned (VObj (Sanitizer.SanitizeJSON data)) (VObj data)
  ∧ Pruning.pruned (VArr (Sanitizer.sanitizeArray arr)) (VArr arr)
  ∧ dom (Sanitizer.SanitizeJSON data) ⊆ dom data
  ∧ length (Sanitizer.sanitizeArray arr) ≤ length arr
  ∧ (∀ k v, Sanitizer.SanitizeJSON data !! k = Some v →
            Pruning.is_scalar v = true → data !! k = Some v).
Proof.
  split; [|split; [|split; [|split]]].
  - apply Pruning.pruned_obj. intros k y (x & Hx & Hy)%SanitizeJSON_lookup_Some.
    exists x. split; [done|].
    apply entry_Some_inv in Hy as (_ & _ & Hy & _). by apply elem_pruned.
  - destruct (sanitizeArray_pruned_of arr) as (kept & Hsub & Hall).
    { apply Forall_forall. intros x _ y. apply elem_pruned. }
    by econstructor.
  - apply dom_imap_subseteq.
  - destruct (sanitizeArray_pruned_of arr) as (kept & Hsub & Hall).
    { apply Forall_forall. intros x _ y. apply elem_pruned. }
    rewrite (Forall2_length _ _ _ Hall). by apply sublist_length.
  - intros k v (x & Hx & Hy)%SanitizeJSON_lookup_Some Hv.
    apply entry_Some_inv in Hy as (_ & _ & Hy & _).
    apply elem_Some_inv in Hy as [(?&?&->&_)|[(?&?&->&_)|(->&_)]]; done.
Qed.

(** ** The order in which the map is visited *)

Section IterationOrder.
Import Sanitizer Pruning.

Lemma in_order_snoc (pairs : list (string * jvalue)) (k : string) (v : jvalue) :
  SanitizeJSON_in_order (pairs ++ [(k, v)])
  = match entry k v with
    | Some kept => <[k := kept]> (SanitizeJSON_in_order pairs)
    | None => SanitizeJSON_in_order pairs
    end.
Proof. unfold SanitizeJSON_in_order. by rewrite foldl_snoc. Qed.

Lemma in_order_list_to_map (pairs : list (string * jvalue)) :
  NoDup pairs.*1 →
  SanitizeJSON_in_order pairs = SanitizeJSON (list_to_map pairs).
Proof.
  induction pairs as [| [k v] pairs IH] using rev_ind; intros Hnd.
  - symmetry. apply (map_imap_empty entry).
  - rewrite fmap_app in Hnd. apply NoDup_app in Hnd as (Hnd & Hk & _).
    assert (k ∉ pairs.*1) as Hfresh.
    { intros Hin. apply (Hk k Hin). cbn. left. }
    rewrite in_order_snoc, (IH Hnd), list_to_map_snoc by done.
    unfold SanitizeJSON. rewrite map_imap_insert.
    destruct (entry k v); [done|].
    apply eq_sym, delete_id. rewrite map_lookup_imap.
    by rewrite (not_elem_of_list_to_map_1 _ _ Hfresh).
Qed.

End IterationOrder.

(** X2.  The result of [SanitizeJSON] does not depend on the order in which
    the [range] loop visits the pairs of the map: run over the pairs of
    [data] in any order, the loop builds the same result. *)
Theorem SanitizeJSON_any_order
    (data : gmap string jvalue) (pairs : list (string * jvalue)) :
  pairs ≡ₚ map_to_list data →
  Pruning.SanitizeJSON_in_order pairs = Sanitizer.SanitizeJSON data.
Proof.
  intros Hperm. rewrite in_order_list_to_map.
  - f_equal. rewrite <- (list_to_map_to_list data).
    apply list_to_map_proper; [|done].
    rewrite Hperm. apply NoDup_fst_map_to_list.
  - rewrite Hperm. apply NoDup_fst_map_to_list.
Qed.

Lemma SanitizeJSON_any_order_witness :
  Pruning.SanitizeJSON_in_order
    [("b", VNum zero); ("lastModifiedDate", VNull); ("a", VStr "x")]
  = Sanitizer.SanitizeJSON
      {[ "a" := VStr "x"; "b" := VNum zero; "lastModifiedDate" := VNull ]}.
Proof.
  apply SanitizeJSON_any_order.
  assert (map_to_list ({[ "a" := VStr "x"; "b" := VNum zero;
                          "lastModifiedDate" := VNull ]} : gmap string jvalue)
          = [("a", VStr "x"); ("b", VNum zero); ("lastModifiedDate", VNull)]) as ->
    by (vm_compute; reflexivity).
  solve_Permutation.
Defined.

(** ** Documents with nothing to prune *)

Section CleanDocuments.
Import Sanitizer Pruning.

Lemma nothing_to_prune_key (m : gmap string jvalue) (k : string) (x : jvalue) :
  nothing_to_prune_below (VObj m) → m !! k = Some x → nothing_to_prune_below x.
Proof.
  intros [Hd Ha] Hk. split.
  - intros m' k' x' Hocc. apply Hd. by eapply occurs_key.
  - intros l x' Hocc. apply Ha. by eapply occurs_key.
Qed.

Lemma nothing_to_prune_elem (l : list jvalue) (x : jvalue) :
  nothing_to_prune_below (VArr l) → x ∈ l → nothing_to_prune_below x.
Proof.
  intros [Hd Ha] [i Hi]%list_elem_of_lookup_1. split.
  - intros m' k' x' Hocc. apply Hd. by eapply occurs_elem.
  - intros l' x' Hocc. apply Ha. by eapply occurs_elem.
Qed.

Lemma omap_all_kept {A} (f : A → option A) (l : list A) :
  Forall (λ x, f x = Some x) l → omap f l = l.
Proof.
  induction 1 as [| x l Hx _ IH]; [done|].
  cbn [omap list_omap]. by rewrite Hx, IH.
Qed.

Lemma SanitizeJSON_kept_of (m : gmap string jvalue) :
  nothing_to_prune_below (VObj m) →
  map_Forall (λ _ x, nothing_to_prune_below x →
                     x ≠ VNull → x ≠ VObj ∅ → x ≠ VArr [] → elem x = Some x) m →
  SanitizeJSON m = m.
Proof.
  intros Hm IH. apply map_eq. intros k. rewrite SanitizeJSON_lookup.
  destruct (m !! k) as [x|] eqn:Hk; [|done]. cbn.
  destruct (proj1 Hm m k x (occurs_here _) Hk) as (H1 & H2 & Hs & Hn & Ho & Ha).
  apply entry_of_elem; try done.
  - apply (IH k x Hk); try done. by eapply nothing_to_prune_key.
  - destruct x; try done. cbn. apply bool_decide_eq_false_2. congruence.
Qed.

Lemma elem_kept (v : jvalue) :
  nothing_to_prune_below v →
  v ≠ VNull → v ≠ VObj ∅ → v ≠ VArr [] → elem v = Some v.
Proof.
  induction v as [| b | f | s | l IH | m IH] using jvalue_nested_ind;
    intros Hv Hn Ho Ha; try done.
  - assert (sanitizeArray l = l) as Heq.
    { apply omap_all_kept. rewrite Forall_forall in IH |- *.
      intros x Hx. destruct (proj2 Hv l x (occurs_here _) Hx) as (? & ? & ?).
      apply IH; try done. by eapply nothing_to_prune_elem. }
    rewrite elem_arr, Heq. rewrite bool_decide_eq_true_2; [done|].
    destruct l; [done | cbn; lia].
  - rewrite elem_obj, (SanitizeJSON_kept_of m Hv IH).
    rewrite bool_decide_eq_true_2; [done|].
    destruct (decide (size m = 0)) as [Hz%map_size_empty_iff|]; [by subst | lia].
Qed.

End CleanDocuments.

(** X3.  The Documents that [SanitizeJSON] returns unchanged are exactly the
    Documents with nothing to prune: no key ["."] or [".."], no key with an
    empty string, null, empty Document or empty sequence, and no null, empty
    Document or empty sequence as a sequence element, at any depth. *)
Theorem SanitizeJSON_unchanged_iff_clean (data : gmap string jvalue) :
  Sanitizer.SanitizeJSON data = data ↔ Pruning.clean data.
Proof.
  split.
  - intros Hfix. unfold Pruning.clean, Pruning.nothing_to_prune_below. split.
    + intros m k x Hocc Hk. rewrite <- Hfix in Hocc.
      assert (∃ m0, m = Sanitizer.SanitizeJSON m0) as (m0 & ->).
      { apply occurs_SanitizeJSON_origin in Hocc as [[= ->] | (v0 & _ & He)].
        - by exists data.
        - apply elem_obj_inv in He as (m0 & _ & -> & _). by exists m0. }
      apply SanitizeJSON_lookup_Some in Hk as (x0 & _ & He).
      pose proof (entry_Some_inv _ _ _ He) as (H1 & H2 & Hel & Hs & Hn).
      pose proof (elem_not_empty _ _ Hel) as (? & ? & ?).
      repeat split; try done. by intros ->.
    + intros l x Hocc Hx. rewrite <- Hfix in Hocc.
      apply occurs_SanitizeJSON_origin in Hocc as [[=] | (v0 & _ & He)].
      apply elem_arr_inv in He as (l0 & _ & -> & _).
      apply list_elem_of_omap in Hx as (x0 & _ & He).
      by apply elem_not_empty in He.
  - intros Hclean. apply SanitizeJSON_kept_of; [exact Hclean|].
    intros k x _. apply elem_kept.
Qed.

(** ** The two sanitizers *)

Section TwoSanitizers.

Lemma Main_sanitizeJSON_fixed_of (m : gmap string jvalue) :
  map_Forall (λ k x, ∀ y, Main.entry k x = Some y → Main.entry k y = Some y) m →
  Main.sanitizeJSON (Main.sanitizeJSON m) = Main.sanitizeJSON m.
Proof.
  intros IH. apply map_eq. intros k. rewrite !Main_sanitizeJSON_lookup.
  destruct (m !! k) as [x|] eqn:Hk; [|done]. cbn.
  destruct (Main.entry k x) as [y|] eqn:He; [|done]. cbn.
  exact (IH k x Hk y He).
Qed.

Lemma Main_fixed_below (value : jvalue) :
  (∀ key y, Main.entry key value = Some y → Main.entry key y = Some y)
  ∧ Main.elem (Main.elem value) = Main.elem value.
Proof.
  induction value as [| b | f | s | l IH | m IH] using jvalue_nested_ind.
  1-4: split; [|done]; intros key y; rewrite Main_entry_unfold;
       repeat (case_match; try done); intros [= <-];
       rewrite Main_entry_unfold; by repeat (case_match; simplify_eq).
  - assert (Main.sanitizeArray (Main.sanitizeArray l) = Main.sanitizeArray l) as Heq.
    { unfold Main.sanitizeArray. rewrite <- list_fmap_compose.
      apply list_fmap_ext. rewrite Forall_forall in IH.
      intros i x Hi. apply (IH x). by eapply list_elem_of_lookup_2. }
    split.
    + intros key y. rewrite Main_entry_unfold.
      destruct (Sanitizer.key_dropped key (VArr l)) eqn:Hd; [done|].
      case_bool_decide as Hlen; [|done]. intros [= <-].
      rewrite Main_entry_unfold. unfold Sanitizer.key_dropped in *.
      cbn [is_empty_string is_nil] in *. rewrite Hd, Heq.
      by rewrite bool_decide_eq_true_2.
    + cbn [Main.elem]. fold (Main.sanitizeArray l).
      fold (Main.sanitizeArray (Main.sanitizeArray l)). by rewrite Heq.
  - assert (Main.sanitizeJSON (Main.sanitizeJSON m) = Main.sanitizeJSON m) as Heq.
    { apply Main_sanitizeJSON_fixed_of. intros k x Hk. apply (IH k x Hk). }
    split.
    + intros key y. rewrite Main_entry_unfold.
      destruct (Sanitizer.key_dropped key (VObj m)) eqn:Hd; [done|].
      case_bool_decide as Hlen; [|done]. intros [= <-].
      rewrite Main_entry_unfold. unfold Sanitizer.key_dropped in *.
      cbn [is_empty_string is_nil] in *. rewrite Hd, Heq.
      by rewrite bool_decide_eq_true_2.
    + cbn [Main.elem]. fold (Main.sanitizeJSON m).
      fold (Main.sanitizeJSON (Main.sanitizeJSON m)). by rewrite Heq.
Qed.

End TwoSanitizers.

(** X4.  The sanitizer of the library prunes at least what the one of
    [main.go] prunes: applied to the result of [main.go]'s [sanitizeJSON] it
    gives what it gives on the input, and every key it keeps is kept by
    [main.go]'s, which itself keeps only keys of the input. *)
Theorem library_prunes_more (data : gmap string jvalue) :
  Sanitizer.SanitizeJSON (Main.sanitizeJSON data) = Sanitizer.SanitizeJSON data
  ∧ dom (Sanitizer.SanitizeJSON data) ⊆ dom (Main.sanitizeJSON data)
  ∧ dom (Main.sanitizeJSON data) ⊆ dom data.
Proof.
  pose proof (library_after_inlined data) as Heq.
  split; [done|]. split.
  - rewrite <- Heq. apply dom_imap_subseteq.
  - apply dom_imap_subseteq.
Qed.

(** X5.  The sanitizer of [main.go] is idempotent too:
    [sanitizeJSON (sanitizeJSON x) = sanitizeJSON x] for every Document, and
    its [sanitizeArray] never changes the number of elements. *)
Theorem Main_sanitizeJSON_idempotent (x : gmap string jvalue) (arr : list jvalue) :
  Main.sanitizeJSON (Main.sanitizeJSON x) = Main.sanitizeJSON x
  ∧ Main.sanitizeArray (Main.sanitizeArray arr) = Main.sanitizeArray arr
  ∧ length (Main.sanitizeArray arr) = length arr.
Proof.
  split; [|split].
  - apply Main_sanitizeJSON_fixed_of. intros k v _. apply Main_fixed_below.
  - unfold Main.sanitizeArray. rewrite <- list_fmap_compose.
    apply list_fmap_ext. intros i v _. apply Main_fixed_below.
  - apply length_fmap.
Qed.

(** X6.  On a sequence of scalars [sanitizeArray] is the stable filter that
    removes the nulls and nothing else: empty strings, [false] and [0] stay,
    in their order. *)
Theorem sanitizeArray_of_scalars (arr : list jvalue) :
  Forall (λ x, Pruning.is_scalar x = true) arr →
  Sanitizer.sanitizeArray arr = List.filter (λ x, negb (is_nil x)) arr.
Proof.
  unfold Sanitizer.sanitizeArray.
  induction 1 as [| x l Hx _ IH]; [done|].
  cbn [omap list_omap List.filter]. rewrite IH. by destruct x.
Qed.

Lemma sanitizeArray_of_scalars_witness :
  Sanitizer.sanitizeArray [VStr "a"; VNull; VStr ""; VNum zero; VNull; VBool false]
  = [VStr "a"; VStr ""; VNum zero; VBool false].
Proof.
  rewrite sanitizeArray_of_scalars; [reflexivity|].
  repeat constructor.
Defined.

(** ** What the indexing client does on the network *)

Section Footprint.
Import Elasticsearch.

(** The events one call of [IndexDocument] adds to the world. *)
Lemma IndexDocument_events
    (env : Env) (c : Client) (data : gmap string jvalue) (w : World) :
  ∃ (n : nat) (evs : list event),
    snd (IndexDocument env c data w)
    = {| calls := n + calls w; trace := trace w ++ evs |}
    ∧ ((n = 0 ∧ evs = []
        ∧ is_Some (fst (IndexDocument env c data w))
        ∧ ∃ err, json_Marshal env (VObj data) = inl err)
       ∨ ∃ body,
           json_Marshal env (VObj data) = inr body
           ∧ let D := EvDo (build_request c (esURL c) body) in
             let S := EvSleep 1000000000 in
             (n = 1 ∧ evs = [D] ∧ fst (IndexDocument env c data w) = None)
             ∨ (n = 2 ∧ evs = [D; S; D] ∧ fst (IndexDocument env c data w) = None)
             ∨ (n = 3 ∧ evs = [D; S; D; S; D])
             ∨ (n = 0 ∧ evs = [S; S]
                ∧ is_Some (fst (IndexDocument env c data w))
                ∧ is_Some (http_NewRequest env "POST" (esURL c)))).
Proof.
  destruct w as [n0 tr]. unfold IndexDocument.
  destruct (json_Marshal env (VObj data)) as [err | body] eqn:Hm.
  { exists 0, []. cbn. split; [by rewrite app_nil_r|]. left. eauto. }
  change (Z.to_nat maxRetries) with 3.
  unfold bind, attempts, sendRequest, bind, Do, Sleep, emit, ret.
  change (1 <=? maxRetries)%Z with true. change (1 <? maxRetries)%Z with true.
  change (1 + 1 <=? maxRetries)%Z with true. change (1 + 1 <? maxRetries)%Z with true.
  change (1 + 1 + 1 <=? maxRetries)%Z with true.
  change (1 + 1 + 1 <? maxRetries)%Z with false.
  change retryInterval with 1000000000%Z.
  cbv beta iota. set (req := build_request c (esURL c) body).
  destruct (http_NewRequest env "POST" (esURL c)) as [e0|] eqn:Hnew.
  { cbn. exists 0, [EvSleep 1000000000; EvSleep 1000000000].
    split; [by rewrite <- !app_assoc|]. right. exists body. split; [done|].
    right; right; right. repeat split; eauto. }
  cbn.
  destruct (transport env n0 req) as [e1 | s1 b1];
    [| destruct (400 <=? s1)%Z; [destruct b1|] ].
  4:{ exists 1, [EvDo req]. cbn. split; [done|]. right. exists body. split; [done|].
      by left. }
  all: cbn;
    (destruct (transport env (S n0) req) as [e2 | s2 b2];
      [| destruct (400 <=? s2)%Z; [destruct b2|] ]).
  all: cbn.
  all: try (exists 2, [EvDo req; EvSleep 1000000000; EvDo req]; cbn;
            split; [by rewrite <- !app_assoc|]; right; exists body; split; [done|];
            right; left; done).
  all: (destruct (transport env (S (S n0)) req) as [e3 | s3 b3];
      [| destruct (400 <=? s3)%Z; [destruct b3|] ]).
  all: cbn.
  all: exists 3, [EvDo req; EvSleep 1000000000; EvDo req; EvSleep 1000000000; EvDo req];
       cbn; (split; [by rewrite <- !app_assoc|]); right; exists body;
       (split; [done|]); right; right; left; done.
Qed.

(** X7.  Whatever the environment answers, one call of [IndexDocument] adds
    to the world one of five sequences: nothing (the Document could not be
    marshalled), one request, request-delay-request,
    request-delay-request-delay-request, or two delays without any request
    (the URL was rejected).  Every request is the same [POST] of the
    marshalled Document to [esURL] with the API key, every delay is one
    second, and it returns [nil] whenever it stops before the third
    request. *)
Theorem IndexDocument_footprint
    (env : Env) (c : Client) (data : gmap string jvalue) (w : World) :
  ∃ (n : nat) (evs : list event),
    snd (IndexDocument env c data w)
    = {| calls := n + calls w; trace := trace w ++ evs |}
    ∧ ((n = 0 ∧ evs = []
        ∧ is_Some (fst (IndexDocument env c data w))
        ∧ ∃ err, json_Marshal env (VObj data) = inl err)
       ∨ ∃ body,
           json_Marshal env (VObj data) = inr body
           ∧ let D := EvDo (build_request c (esURL c) body) in
             let S := EvSleep 1000000000 in
             (n = 1 ∧ evs = [D] ∧ fst (IndexDocument env c data w) = None)
             ∨ (n = 2 ∧ evs = [D; S; D] ∧ fst (IndexDocument env c data w) = None)
             ∨ (n = 3 ∧ evs = [D; S; D; S; D])
             ∨ (n = 0 ∧ evs = [S; S]
                ∧ is_Some (fst (IndexDocument env c data w))
                ∧ is_Some (http_NewRequest env "POST" (esURL c)))).
Proof. apply IndexDocument_events. Qed.

End Footprint.

Section SuccessCriterion.
Import Elasticsearch Delivery.
Variable env : Env.

(** With a URL that [http.NewRequest] accepts, one call of [sendRequest] is
    one transport call, and it returns [nil] exactly when the answer is
    accepted. *)
Lemma sendRequest_accepted (c : Client) (url : string) (body : list byte) (w : World) :
  http_NewRequest env "POST" url = None →
  ∃ r, sendRequest env c url body w
       = (r, {| calls := S (calls w);
                trace := trace w ++ [EvDo (build_request c url body)] |})
       ∧ (if accepted env (build_request c url body) (calls w)
          then r = None else is_Some r).
Proof.
  intros Hnew. unfold accepted.
  destruct (sendRequest_cases env c url body w)
    as [(s & b & _ & Hdo & Hlt & ->)
       |[(err & Hnew' & _)
        |[(err & _ & Hdo & ->)
         |(s & b & _ & Hdo & Hge & ->)]]].
  - eexists. split; [done|]. rewrite Hdo.
    by rewrite (proj2 (Z.ltb_lt s 400) Hlt).
  - congruence.
  - eexists. split; [done|]. by rewrite Hdo.
  - eexists. split; [done|]. rewrite Hdo.
    by rewrite (proj2 (Z.ltb_ge s 400) Hge).
Qed.

End SuccessCriterion.

(** X8.  When the Document can be marshalled and the URL is accepted,
    [IndexDocument] returns [nil] exactly when one of the next three answers
    of the transport is a response with a status below 400, and it makes
    one transport call more than the answers it had to reject, three at
    most: later answers are never asked for. *)
Theorem IndexDocument_succeeds_iff
    (env : Env) (c : Elasticsearch.Client) (data : gmap string jvalue)
    (body : list byte) (w : World) :
  json_Marshal env (VObj data) = inr body →
  http_NewRequest env "POST" (Elasticsearch.esURL c) = None →
  let ok := Delivery.accepted env
              (Elasticsearch.build_request c (Elasticsearch.esURL c) body) in
  (fst (Elasticsearch.IndexDocument env c data w) = None
   ↔ ok (calls w) || ok (1 + calls w) || ok (2 + calls w) = true)
  ∧ calls (snd (Elasticsearch.IndexDocument env c data w))
    = (if ok (calls w) then 1 else if ok (1 + calls w) then 2 else 3) + calls w.
Proof.
  intros Hm Hnew ok. unfold Elasticsearch.IndexDocument. rewrite Hm.
  change (Z.to_nat Elasticsearch.maxRetries) with 3.
  unfold bind. cbn [Elasticsearch.attempts].
  change (1 <=? Elasticsearch.maxRetries)%Z with true.
  change (1 <? Elasticsearch.maxRetries)%Z with true.
  change (1 + 1 <=? Elasticsearch.maxRetries)%Z with true.
  change (1 + 1 <? Elasticsearch.maxRetries)%Z with true.
  change (1 + 1 + 1 <=? Elasticsearch.maxRetries)%Z with true.
  change (1 + 1 + 1 <? Elasticsearch.maxRetries)%Z with false.
  cbv beta iota. unfold bind, Sleep, emit.
  destruct (sendRequest_accepted env c _ body w Hnew) as (r1 & -> & H1).
  fold ok in H1. destruct (ok (calls w)); [subst r1; by cbn|].
  destruct H1 as [e1 ->]. cbn [fst snd calls trace].
  match goal with
  | |- context [Elasticsearch.sendRequest env c ?u body ?w1] =>
      destruct (sendRequest_accepted env c u body w1 Hnew) as (r2 & -> & H2)
  end.
  cbn [calls] in H2. fold ok in H2.
  change (1 + calls w) with (S (calls w)).
  destruct (ok (S (calls w))); [subst r2; by cbn|].
  destruct H2 as [e2 ->]. cbn [fst snd calls trace].
  match goal with
  | |- context [Elasticsearch.sendRequest env c ?u body ?w1] =>
      destruct (sendRequest_accepted env c u body w1 Hnew) as (r3 & -> & H3)
  end.
  cbn [calls] in H3. fold ok in H3.
  change (2 + calls w) with (S (S (calls w))).
  destruct (ok (S (S (calls w)))); [subst r3; by cbn|].
  destruct H3 as [e3 ->]. cbn. split; [|done]. split; [done|]. discriminate.
Qed.

Lemma IndexDocument_succeeds_iff_witness :
  fst (Elasticsearch.IndexDocument Delivery.flaky Elasticsearch.docs_client
         ∅ Elasticsearch.start) = None
  ∧ calls (snd (Elasticsearch.IndexDocument Delivery.flaky
                  Elasticsearch.docs_client ∅ Elasticsearch.start)) = 3.
Proof.
  destruct (IndexDocument_succeeds_iff Delivery.flaky Elasticsearch.docs_client
              ∅ (bytes_of_string "{}") Elasticsearch.start eq_refl eq_refl)
    as [Hiff Hcalls].
  split.
  - apply Hiff. reflexivity.
  - rewrite Hcalls. reflexivity.
Defined.

(** ** The answers of the worker *)

Section Answers.
Import Elasticsearch Worker Intake.
Variable env : Env.

Lemma http_Error_fresh (msg : string) (code : Z) (w : ResponseWriter) :
  Status w = None →
  Status (http_Error msg code w) = Some code
  ∧ Written (http_Error msg code w) = Written w ++ bytes_of_string msg ++ [Byte.x0a]
  ∧ Header (http_Error msg code w) !! "Content-Type"
    = Some ["text/plain; charset=utf-8"]
  ∧ Header (http_Error msg code w) !! "X-Content-Type-Options" = Some ["nosniff"].
Proof.
  intros Hs. unfold http_Error, Write, WriteHeader, Header_Set, Header_Del. cbn.
  rewrite Hs. cbn. repeat split.
  - rewrite lookup_insert_ne by done. apply lookup_insert_eq.
  - apply lookup_insert_eq.
Qed.

(** [process] on a request that is refused before any Document exists. *)
Lemma process_refused (p : Pool) (r : HttpRequest) (w : ResponseWriter) (world : World) :
  process env p r w world
  = if bool_decide (Method r ≠ "POST") then
      (http_Error "Only POST method is allowed" StatusMethodNotAllowed
         (Header_Set "Content-Type" "application/json" w), world)
    else match input_error env r with
         | Some msg =>
             (http_Error msg StatusBadRequest
                (Header_Set "Content-Type" "application/json" w), world)
         | None => process env p r w world
         end.
Proof.
  unfold process, input_error. case_bool_decide; [done|].
  destruct (Body r) as [err | body]; [done|].
  by destruct (Unmarshal_map env body).
Qed.

End Answers.

(** X9.  A request whose method is not [POST] is answered 405 with the text
    [Only POST method is allowed] as [text/plain]; its body is not read,
    nothing is sent to the indexing service, and [Done] is signalled. *)
Theorem wrong_method_is_refused
    (env : Env) (p : Worker.Pool) (r : Worker.HttpRequest)
    (w : Worker.ResponseWriter) (world : World) :
  Worker.Method r ≠ "POST" →
  Worker.Status w = None →
  ∃ w' : Worker.ResponseWriter,
    Worker.processRequest env p r w world
    = (w', {| calls := calls world; trace := trace world ++ [EvDone] |})
    ∧ Worker.Status w' = Some 405%Z
    ∧ Worker.Written w'
      = Worker.Written w ++ bytes_of_string "Only POST method is allowed" ++ [Byte.x0a]
    ∧ Worker.Header w' !! "Content-Type" = Some ["text/plain; charset=utf-8"]
    ∧ Worker.Header w' !! "X-Content-Type-Options" = Some ["nosniff"].
Proof.
  intros Hm Hs. unfold Worker.processRequest, bind.
  rewrite process_refused, bool_decide_eq_true_2 by done.
  eexists. split; [reflexivity|].
  exact (http_Error_fresh _ _
           (Worker.Header_Set "Content-Type" "application/json" w) Hs).
Qed.

Lemma wrong_method_is_refused_witness :
  Worker.Status
    (fst (Worker.processRequest Elasticsearch.always_500
            {| Worker.es := Elasticsearch.docs_client |}
            {| Worker.Method := "GET"; Worker.Body := inr [] |}
            Worker.fresh Elasticsearch.start)) = Some 405%Z.
Proof.
  destruct (wrong_method_is_refused Elasticsearch.always_500
              {| Worker.es := Elasticsearch.docs_client |}
              {| Worker.Method := "GET"; Worker.Body := inr [] |}
              Worker.fresh Elasticsearch.start) as (w' & -> & Hs & _).
  - discriminate.
  - reflexivity.
  - exact Hs.
Defined.

(** X10.  A [POST] whose body cannot be read, is not JSON, or is a JSON
    value other than an object or [null] is answered 400 with the text
    [Error reading body: ...] or [Error parsing JSON: ...] and the message
    of the error; nothing is sanitized or sent to the indexing service. *)
Theorem bad_input_is_a_bad_request
    (env : Env) (p : Worker.Pool) (r : Worker.HttpRequest)
    (w : Worker.ResponseWriter) (world : World) (msg : string) :
  Worker.Method r = "POST" →
  Worker.Status w = None →
  (∃ err, Worker.Body r = inl err ∧ msg = "Error reading body: " +:+ Error err)
  ∨ (∃ body err, Worker.Body r = inr body ∧ json_Unmarshal env body = inl err
                 ∧ msg = "Error parsing JSON: " +:+ Error err)
  ∨ (∃ body v, Worker.Body r = inr body ∧ json_Unmarshal env body = inr v
               ∧ v ≠ VNull ∧ (∀ m, v ≠ VObj m)
               ∧ msg = "Error parsing JSON: json: cannot unmarshal "
                       +:+ Worker.json_kind v
                       +:+ " into Go value of type map[string]interface {}") →
  ∃ w' : Worker.ResponseWriter,
    Worker.processRequest env p r w world
    = (w', {| calls := calls world; trace := trace world ++ [EvDone] |})
    ∧ Worker.Status w' = Some 400%Z
    ∧ Worker.Written w' = Worker.Written w ++ bytes_of_string msg ++ [Byte.x0a]
    ∧ Worker.Header w' !! "Content-Type" = Some ["text/plain; charset=utf-8"].
Proof.
  intros Hm Hs Hcause.
  assert (Intake.input_error env r = Some msg) as Herr.
  { unfold Intake.input_error, Worker.Unmarshal_map.
    destruct Hcause as [(err & -> & ->)
                       |[(body & err & -> & -> & ->)
                        |(body & v & -> & -> & Hn & Ho & ->)]]; try done.
    destruct v; try done. by destruct (Ho m). }
  unfold Worker.processRequest, bind.
  rewrite process_refused, bool_decide_eq_false_2 by (by rewrite Hm; intros []).
  rewrite Herr. eexists. split; [reflexivity|].
  destruct (http_Error_fresh msg Worker.StatusBadRequest
              (Worker.Header_Set "Content-Type" "application/json" w) Hs)
    as (H1 & H2 & H3 & _).
  done.
Qed.

Lemma bad_input_is_a_bad_request_witness :
  Worker.Status
    (fst (Worker.processRequest Intake.sends_arrays
            {| Worker.es := Elasticsearch.docs_client |}
            {| Worker.Method := "POST"; Worker.Body := inr (bytes_of_string "[]") |}
            Worker.fresh Elasticsearch.start)) = Some 400%Z.
Proof.
  destruct (bad_input_is_a_bad_request Intake.sends_arrays
              {| Worker.es := Elasticsearch.docs_client |}
              {| Worker.Method := "POST"; Worker.Body := inr (bytes_of_string "[]") |}
              Worker.fresh Elasticsearch.start
              ("Error parsing JSON: json: cannot unmarshal array"
               +:+ " into Go value of type map[string]interface {}"))
    as (w' & -> & Hs & _).
  - reflexivity.
  - reflexivity.
  - right; right. exists (bytes_of_string "[]"), (VArr []).
    repeat split; try done.
  - exact Hs.
Defined.

Section EveryRequest.
Import Elasticsearch Worker Intake.
Variable env : Env.

(** The three ways [process] ends, with what it leaves in the world. *)
Lemma process_cases (p : Pool) (r : HttpRequest) (w : ResponseWriter) (world : World) :
  (∃ msg code,
      (code = 400 ∨ code = 405)%Z
      ∧ process env p r w world
        = (http_Error msg code (Header_Set "Content-Type" "application/json" w),
           world))
  ∨ (∃ body data,
        Method r = "POST" ∧ Body r = inr body ∧ Unmarshal_map env body = inr data
        ∧ process env p r w world
          = (Encode env
               (match fst (IndexDocument env (es p) (Sanitizer.SanitizeJSON data) world) with
                | Some _ => warning_body (Sanitizer.SanitizeJSON data)
                | None => success_body (Sanitizer.SanitizeJSON data)
                end)
               (Header_Set "Content-Type" "application/json" w),
             snd (IndexDocument env (es p) (Sanitizer.SanitizeJSON data) world))).
Proof.
  destruct (decide (Method r = "POST")) as [Hm | Hm].
  - destruct (input_error env r) as [msg|] eqn:Herr.
    + left. exists msg, 400%Z. split; [by left|].
      rewrite process_refused, bool_decide_eq_false_2 by (by rewrite Hm; intros []).
      by rewrite Herr.
    + right. unfold input_error in Herr.
      destruct (Body r) as [err | body] eqn:Hb; [done|].
      destruct (Unmarshal_map env body) as [err | data] eqn:Hd; [done|].
      exists body, data. repeat split; try done.
      exact (process_decoded env p r w body data world Hm Hb Hd).
  - left. exists "Only POST method is allowed", 405%Z. split; [by right|].
    by rewrite process_refused, bool_decide_eq_true_2.
Qed.

Lemma Encode_status (v : jvalue) (w : ResponseWriter) :
  Status w = None →
  Status (Encode env v w) = None ∨ Status (Encode env v w) = Some 200%Z.
Proof.
  intros Hs. unfold Encode, Write, WriteHeader.
  destruct (json_Marshal env v); [by left|]. rewrite Hs. by right.
Qed.

End EveryRequest.

(** X11.  Whatever the request and the environment, [processRequest] makes
    at most three transport calls, signals [Done] exactly once, as the last
    thing it does, and answers with status 200, 400 or 405: it never answers
    with a 5xx status. *)
Theorem processRequest_always
    (env : Env) (p : Worker.Pool) (r : Worker.HttpRequest)
    (w : Worker.ResponseWriter) (world : World) :
  Worker.Status w = None →
  ∃ (n : nat) (evs : list event),
    snd (Worker.processRequest env p r w world)
    = {| calls := n + calls world; trace := trace world ++ evs ++ [EvDone] |}
    ∧ n ≤ 3
    ∧ (EvDone ∉ evs)
    ∧ (∀ s, Worker.Status (fst (Worker.processRequest env p r w world)) = Some s →
            s = 200 ∨ s = 400 ∨ s = 405)%Z.
Proof.
  intros Hs. unfold Worker.processRequest, bind, emit, ret.
  destruct (process_cases env p r w world)
    as [(msg & code & Hcode & ->) | (body & data & _ & _ & _ & ->)].
  - exists 0, []. cbn [fst snd calls trace]. repeat split; try done.
    + lia.
    + apply not_elem_of_nil.
    + destruct (http_Error_fresh msg code
                  (Worker.Header_Set "Content-Type" "application/json" w) Hs)
        as (-> & _). intros s [= <-]. lia.
  - destruct (IndexDocument_events env (Worker.es p) (Sanitizer.SanitizeJSON data) world)
      as (n & evs & -> & Hshape).
    exists n, evs. cbn [fst snd calls trace]. split; [by rewrite <- app_assoc|].
    assert (n ≤ 3 ∧ EvDone ∉ evs) as [Hn Hev].
    { destruct Hshape as [(-> & -> & _) | (b & _ & Hshape)].
      - split; [lia | apply not_elem_of_nil].
      - cbv zeta in Hshape.
        destruct Hshape as [(-> & -> & _) | [(-> & -> & _) | [(-> & ->) | (-> & -> & _)]]];
          (split; [lia|]); rewrite ?elem_of_cons, elem_of_nil;
          intuition discriminate. }
    repeat split; try done.
    intros s. destruct (Encode_status env
      (match fst (Elasticsearch.IndexDocument env (Worker.es p)
                    (Sanitizer.SanitizeJSON data) world) with
       | Some _ => Worker.warning_body (Sanitizer.SanitizeJSON data)
       | None => Worker.success_body (Sanitizer.SanitizeJSON data)
       end)
      (Worker.Header_Set "Content-Type" "application/json" w) Hs) as [-> | ->];
      [done | intros [= <-]; lia].
Qed.

Lemma processRequest_always_witness :
  ∃ (n : nat) (evs : list event),
    snd (Worker.processRequest Delivery.flaky
           {| Worker.es := Elasticsearch.docs_client |}
           {| Worker.Method := "POST"; Worker.Body := inr [] |}
           Worker.fresh Elasticsearch.start)
    = {| calls := n + 0; trace := [] ++ evs ++ [EvDone] |}
    ∧ n ≤ 3.
Proof.
  destruct (processRequest_always Delivery.flaky
              {| Worker.es := Elasticsearch.docs_client |}
              {| Worker.Method := "POST"; Worker.Body := inr [] |}
              Worker.fresh Elasticsearch.start eq_refl)
    as (n & evs & Hw & Hn & _).
  exists n, evs. split; [exact Hw | exact Hn].
Defined.

(** X12.  Every request that [processRequest] sends to the indexing service
    is a [POST] to [esURL] with the API key, and its body is the JSON text
    of the sanitized Document: the decoded input itself is never sent. *)
Theorem only_sanitized_documents_are_sent
    (env : Env) (p : Worker.Pool) (r : Worker.HttpRequest)
    (w : Worker.ResponseWriter) (world : World) (evs : list event) (req : Request) :
  trace (snd (Worker.processRequest env p r w world)) = trace world ++ evs →
  EvDo req ∈ evs →
  ∃ body data,
    Worker.Body r = inr body
    ∧ Worker.Unmarshal_map env body = inr data
    ∧ json_Marshal env (VObj (Sanitizer.SanitizeJSON data)) = inr (req_body req)
    ∧ req = Elasticsearch.build_request (Worker.es p)
              (Elasticsearch.esURL (Worker.es p)) (req_body req)
    ∧ req_method req = "POST"
    ∧ ("Authorization",
       "ApiKey " +:+ Elasticsearch.APIKey (Elasticsearch.config (Worker.es p)))
      ∈ req_header req.
Proof.
  unfold Worker.processRequest, bind, emit, ret.
  destruct (process_cases env p r w world)
    as [(msg & code & Hcode & ->) | (body & data & _ & Hb & Hd & ->)];
    cbn [fst snd calls trace].
  - intros <-%app_inv_head. rewrite elem_of_cons, elem_of_nil. by intros [|].
  - destruct (IndexDocument_events env (Worker.es p) (Sanitizer.SanitizeJSON data) world)
      as (n & evs0 & -> & Hshape).
    cbn [trace]. rewrite <- app_assoc. intros <-%app_inv_head Hin.
    rewrite elem_of_app, elem_of_cons, elem_of_nil in Hin.
    destruct Hin as [Hin | [|]]; try done.
    exists body, data. split; [done|]. split; [done|].
    assert (∃ b, json_Marshal env (VObj (Sanitizer.SanitizeJSON data)) = inr b
                 ∧ req = Elasticsearch.build_request (Worker.es p)
                           (Elasticsearch.esURL (Worker.es p)) b) as (b & Hb' & ->).
    { destruct Hshape as [(_ & -> & _) | (b & Hm & Hshape)].
      - by apply elem_of_nil in Hin.
      - exists b. split; [done|]. cbv zeta in Hshape.
        destruct Hshape as [(_ & -> & _) | [(_ & -> & _) | [(_ & ->) | (_ & -> & _)]]];
          rewrite ?elem_of_cons, elem_of_nil in Hin;
          intuition congruence. }
    cbn. repeat split; try done. rewrite !elem_of_cons. by right; left.
Qed.

Lemma only_sanitized_documents_are_sent_witness :
  ∃ data,
    Worker.Unmarshal_map Elasticsearch.always_500 [] = inr data
    ∧ json_Marshal Elasticsearch.always_500 (VObj (Sanitizer.SanitizeJSON data))
      = inr (bytes_of_string "{}").
Proof.
  destruct (only_sanitized_documents_are_sent Elasticsearch.always_500
              {| Worker.es := Elasticsearch.docs_client |}
              {| Worker.Method := "POST"; Worker.Body := inr [] |}
              Worker.fresh Elasticsearch.start
              (trace (snd (Worker.processRequest Elasticsearch.always_500
                             {| Worker.es := Elasticsearch.docs_client |}
                             {| Worker.Method := "POST"; Worker.Body := inr [] |}
                             Worker.fresh Elasticsearch.start)))
              (Elasticsearch.build_request Elasticsearch.docs_client
                 "https://es:9200/docs/_doc" (bytes_of_string "{}")))
    as (body & data & H1 & H2 & H3 & _).
  - reflexivity.
  - vm_compute. left.
  - injection H1 as <-. exists data. split; [exact H2 | exact H3].
Defined.

(** X13.  When [IndexDocument] returns [nil], the worker answers with
    status 200 and the JSON text of [{"status":"success","message":"Data
    processed successfully","data": d}] followed by a newline, where [d] is
    the sanitized Document. *)
Theorem delivery_is_a_success
    (env : Env) (p : Worker.Pool) (r : Worker.HttpRequest)
    (w : Worker.ResponseWriter) (body text : list byte)
    (data : gmap string jvalue) (world world' : World) :
  Worker.Method r = "POST" →
  Worker.Body r = inr body →
  Worker.Unmarshal_map env body = inr data →
  Elasticsearch.IndexDocument env (Worker.es p) (Sanitizer.SanitizeJSON data) world
  = (None, world') →
  Worker.Status w = None →
  json_Marshal env
    (VObj {[ "status" := VStr "success";
             "message" := VStr "Data processed successfully";
             "data" := VObj (Sanitizer.SanitizeJSON data) ]}) = inr text →
  ∃ w' : Worker.ResponseWriter,
    Worker.processRequest env p r w world
    = (w', {| calls := calls world'; trace := trace world' ++ [EvDone] |})
    ∧ Worker.Status w' = Some 200%Z
    ∧ Worker.Written w' = Worker.Written w ++ text ++ [Byte.x0a]
    ∧ Worker.Header w' !! "Content-Type" = Some ["application/json"].
Proof.
  intros Hm Hb Hd Hidx Hs Htext.
  unfold Worker.processRequest, bind.
  rewrite (process_decoded env p r w body data world Hm Hb Hd), Hidx.
  cbn [fst snd]. unfold Worker.success_body. eexists. split; [reflexivity|].
  destruct (Encode_fresh_status env _
              (Worker.Header_Set "Content-Type" "application/json" w) text Htext Hs)
    as (H1 & H2 & H3).
  split; [exact H1|]. split; [exact H2|].
  rewrite H3. cbn. apply lookup_insert_eq.
Qed.

Lemma delivery_is_a_success_witness :
  ∃ w' : Worker.ResponseWriter,
    fst (Worker.processRequest Delivery.flaky
           {| Worker.es := Elasticsearch.docs_client |}
           {| Worker.Method := "POST"; Worker.Body := inr [] |}
           Worker.fresh Elasticsearch.start) = w'
    ∧ Worker.Status w' = Some 200%Z.
Proof.
  destruct (delivery_is_a_success Delivery.flaky
              {| Worker.es := Elasticsearch.docs_client |}
              {| Worker.Method := "POST"; Worker.Body := inr [] |}
              Worker.fresh [] (bytes_of_string "{}") ∅
              Elasticsearch.start
              (snd (Elasticsearch.IndexDocument Delivery.flaky
                      Elasticsearch.docs_client ∅ Elasticsearch.start)))
    as (w' & Hrun & Hstatus & _).
  - reflexivity.
  - reflexivity.
  - reflexivity.
  - vm_compute. reflexivity.
  - reflexivity.
  - reflexivity.
  - exists w'. split; [by rewrite Hrun | exact Hstatus].
Defined.

(** ** Configuration *)

Section ConfigFacts.
Import Elasticsearch Config.

Lemma loadESConfig_unfold (environ : gmap string string) :
  loadESConfig environ
  = match List.filter (λ v, bool_decide (Getenv environ v = "")) required with
    | [] => inr {| URL := Getenv environ "ES_URL";
                   APIKey := Getenv environ "ES_API_KEY";
                   Index := Getenv environ "ES_INDEX" |}
    | missing =>
        inl (errorString ("missing required environment variables: "
                          +:+ fmt_strings missing))
    end.
Proof.
  unfold loadESConfig, required. cbn [List.filter].
  destruct (bool_decide (Getenv environ "ES_URL" = ""));
    destruct (bool_decide (Getenv environ "ES_API_KEY" = ""));
    destruct (bool_decide (Getenv environ "ES_INDEX" = "")); reflexivity.
Qed.

Lemma Getenv_empty_or_unset (environ : gmap string string) (k key : string) :
  Getenv (<[k := ""]> environ) key = Getenv (delete k environ) key.
Proof.
  unfold Getenv. destruct (decide (k = key)) as [->|Hne].
  - by rewrite lookup_insert_eq, lookup_delete_eq.
  - by rewrite lookup_insert_ne, lookup_delete_ne.
Qed.

End ConfigFacts.

(** X14.  [loadESConfig] returns a configuration exactly when [ES_URL],
    [ES_API_KEY] and [ES_INDEX] are all set to non-empty values, and the
    configuration then holds these three values unchanged. *)
Theorem loadESConfig_complete_iff
    (environ : gmap string string) (cfg : Elasticsearch.ElasticsearchConfig) :
  Config.loadESConfig environ = inr cfg
  ↔ Config.Getenv environ "ES_URL" ≠ ""
    ∧ Config.Getenv environ "ES_API_KEY" ≠ ""
    ∧ Config.Getenv environ "ES_INDEX" ≠ ""
    ∧ cfg = {| Elasticsearch.URL := Config.Getenv environ "ES_URL";
               Elasticsearch.APIKey := Config.Getenv environ "ES_API_KEY";
               Elasticsearch.Index := Config.Getenv environ "ES_INDEX" |}.
Proof.
  unfold Config.loadESConfig.
  destruct (decide (Config.Getenv environ "ES_URL" = "")) as [H1|H1];
    destruct (decide (Config.Getenv environ "ES_API_KEY" = "")) as [H2|H2];
    destruct (decide (Config.Getenv environ "ES_INDEX" = "")) as [H3|H3];
    rewrite ?(bool_decide_eq_true_2 _ H1), ?(bool_decide_eq_false_2 _ H1),
            ?(bool_decide_eq_true_2 _ H2), ?(bool_decide_eq_false_2 _ H2),
            ?(bool_decide_eq_true_2 _ H3), ?(bool_decide_eq_false_2 _ H3);
    cbn; split; try (intros [= <-]); try tauto; try done.
  by intros (_ & _ & _ & ->).
Qed.

(** X15.  When [loadESConfig] fails, its error names exactly the variables
    among [ES_URL], [ES_API_KEY], [ES_INDEX] that are unset or empty, in
    this order, between brackets and separated by spaces. *)
Theorem loadESConfig_names_what_is_missing
    (environ : gmap string string) (err : error) :
  Config.loadESConfig environ = inl err →
  ∃ missing,
    missing = List.filter (λ v, bool_decide (Config.Getenv environ v = ""))
                ["ES_URL"; "ES_API_KEY"; "ES_INDEX"]
    ∧ missing ≠ []
    ∧ err = errorString ("missing required environment variables: ["
                         +:+ String.concat " " missing +:+ "]").
Proof.
  rewrite loadESConfig_unfold. unfold Config.required.
  destruct (List.filter _ _) as [| v missing] eqn:Hf; [done|].
  intros [= <-]. exists (v :: missing). done.
Qed.

Lemma loadESConfig_names_what_is_missing_witness :
  ∃ missing,
    missing = List.filter
                (λ v, bool_decide
                        (Config.Getenv {[ "ES_API_KEY" := "key"; "ES_INDEX" := "" ]} v
                         = ""))
                ["ES_URL"; "ES_API_KEY"; "ES_INDEX"]
    ∧ missing ≠ []
    ∧ errorString "missing required environment variables: [ES_URL ES_INDEX]"
      = errorString ("missing required environment variables: ["
                     +:+ String.concat " " missing +:+ "]").
Proof.
  apply (loadESConfig_names_what_is_missing
           {[ "ES_API_KEY" := "key"; "ES_INDEX" := "" ]}).
  vm_compute. reflexivity.
Defined.

(** X16.  [Load] fails exactly when [loadESConfig] fails, with the same
    error: [logger.Initialize] never fails, whatever the log level is.  When
    it succeeds, the port is [PORT], or [8080] if [PORT] is unset or empty;
    the log level is [LOG_LEVEL], or [info] if unset or empty; the JSON
    format is on exactly when [LOG_FORMAT] is [json], and the logger writes
    to the console exactly when it is off; the global level is the parsed
    [LOG_LEVEL], or [InfoLevel] when it does not parse. *)
Theorem Load_result {L : Type} (InfoLevel : L) (ParseLevel : string → error + L)
    (environ : gmap string string) :
  snd (Config.Load InfoLevel ParseLevel environ)
  = match Config.loadESConfig environ with
    | inl err => inl err
    | inr es =>
        inr {| Config.Port :=
                 if bool_decide (Config.Getenv environ "PORT" = "") then "8080"
                 else Config.Getenv environ "PORT";
               Config.ES := es;
               Config.Log :=
                 {| Config.Level :=
                      if bool_decide (Config.Getenv environ "LOG_LEVEL" = "")
                      then "info" else Config.Getenv environ "LOG_LEVEL";
                    Config.JSONFormat :=
                      bool_decide (Config.Getenv environ "LOG_FORMAT" = "json") |} |}
    end
  ∧ Logger.Console (fst (Config.Load InfoLevel ParseLevel environ))
    = negb (bool_decide (Config.Getenv environ "LOG_FORMAT" = "json"))
  ∧ Logger.GlobalLevel (fst (Config.Load InfoLevel ParseLevel environ))
    = match ParseLevel (Config.Getenv environ "LOG_LEVEL") with
      | inl _ => InfoLevel
      | inr level => level
      end.
Proof.
  unfold Config.Load, Logger.Initialize. cbn.
  destruct (Config.loadESConfig environ); done.
Qed.

(** X17.  The configuration cannot tell a variable set to the empty string
    from a variable that is not set: [loadESConfig], [loadLogConfig], [Load]
    and [getESConfig] of [main.go] return the same in both environments. *)
Theorem empty_variable_is_unset {L : Type} (InfoLevel : L)
    (ParseLevel : string → error + L) (environ : gmap string string) (k : string) :
  Config.loadESConfig (<[k := ""]> environ) = Config.loadESConfig (delete k environ)
  ∧ Config.loadLogConfig (<[k := ""]> environ) = Config.loadLogConfig (delete k environ)
  ∧ Config.Load InfoLevel ParseLevel (<[k := ""]> environ)
    = Config.Load InfoLevel ParseLevel (delete k environ)
  ∧ Config.getESConfig (<[k := ""]> environ) = Config.getESConfig (delete k environ).
Proof.
  assert (Config.loadESConfig (<[k := ""]> environ)
          = Config.loadESConfig (delete k environ)) as Hes.
  { unfold Config.loadESConfig. by rewrite !Getenv_empty_or_unset. }
  assert (Config.loadLogConfig (<[k := ""]> environ)
          = Config.loadLogConfig (delete k environ)) as Hlog.
  { unfold Config.loadLogConfig. by rewrite !Getenv_empty_or_unset. }
  repeat split; try done.
  - unfold Config.Load. by rewrite Hes, Hlog, !Getenv_empty_or_unset.
  - unfold Config.getESConfig. by rewrite !Getenv_empty_or_unset.
Qed.

(** X18.  [getESConfig] of [main.go] accepts the same environments as
    [loadESConfig] and returns the same configuration; when it fails, its
    error always names all three variables, whichever is missing. *)
Theorem getESConfig_agrees_with_loadESConfig (environ : gmap string string) :
  (∀ cfg, Config.getESConfig environ = inr cfg ↔ Config.loadESConfig environ = inr cfg)
  ∧ (∀ err, Config.getESConfig environ = inl err →
            err = errorString
                    "missing required environment variables: ES_URL, ES_API_KEY, ES_INDEX").
Proof.
  unfold Config.getESConfig, Config.loadESConfig.
  destruct (bool_decide (Config.Getenv environ "ES_URL" = ""));
    destruct (bool_decide (Config.Getenv environ "ES_API_KEY" = ""));
    destruct (bool_decide (Config.Getenv environ "ES_INDEX" = ""));
    cbn; split; try done; intros err [= <-]; done.
Qed.

(** ** Fields of a log line *)

Section FieldsFacts.
Import Logger.
Context {V : Type}.
Variable as_string : V → option string.

Lemma fields_loop_flatten (of_string : string → V)
    (kvs : list (string * V)) (result : gmap string V) :
  (∀ s, as_string (of_string s) = Some s) →
  fields_loop as_string (flatten of_string kvs) result
  = foldr (λ kv m, <[kv.1 := kv.2]> m) result (reverse kvs).
Proof.
  intros Hs. revert result.
  induction kvs as [| [k v] kvs IH]; intros result; [done|].
  unfold flatten in *. cbn [mbind list_bind app fields_loop fst snd].
  rewrite Hs, IH, reverse_cons, foldr_app. done.
Qed.

Lemma length_flatten (of_string : string → V) (kvs : list (string * V)) :
  length (flatten of_string kvs) = 2 * length kvs.
Proof.
  unfold flatten. induction kvs as [| kv kvs IH]; [done|].
  cbn [mbind list_bind app length]. rewrite IH. lia.
Qed.


End FieldsFacts.

(** X19.  [fieldsToMap] turns the arguments [k1, v1, k2, v2, ...] with
    string keys into the map with these pairs, a later pair replacing an
    earlier one with the same key. *)
Theorem fieldsToMap_of_pairs {V : Type} (as_string : V → option string)
    (of_string : string → V) (kvs : list (string * V)) :
  (∀ s, as_string (of_string s) = Some s) →
  Logger.fieldsToMap as_string (Logger.flatten of_string kvs)
  = Some (list_to_map (reverse kvs)).
Proof.
  intros Hs. unfold Logger.fieldsToMap.
  rewrite length_flatten.
  rewrite bool_decide_eq_false_2.
  - f_equal. by apply fields_loop_flatten.
  - rewrite Nat.mul_comm, Nat.Div0.mod_mul. by intros [].
Qed.

Lemma fieldsToMap_of_pairs_witness :
  Logger.fieldsToMap
    (λ v, match v with VStr s => Some s | _ => None end)
    [VStr "url"; VStr "a"; VStr "index"; VStr "docs"; VStr "url"; VStr "b"]
  = Some {[ "url" := VStr "b"; "index" := VStr "docs" ]}.
Proof.
  etrans.
  - exact (fieldsToMap_of_pairs
             (λ v, match v with VStr s => Some s | _ => None end) VStr
             [("url", VStr "a"); ("index", VStr "docs"); ("url", VStr "b")]
             (λ s, eq_refl)).
  - reflexivity.
Defined.



(** ** The queue and the Work Items *)

Section DispatchFacts.
Import Scheduling Dispatch.

Lemma step_queue (s s' : state) (l : label) :
  step s l s' →
  requests s ++ sent [l] = received [l] ++ requests s'.
Proof.
  destruct 1 as [s r Hr | s r Hr Hlen | s i r rest Hi Hq | s i r Hi | s i r Hi Hr];
    cbn; rewrite ?app_nil_r; try done.
Qed.

Lemma exec_queue (s0 s : state) (ls : list label) :
  exec s0 ls s →
  requests s0 ++ sent ls = received ls ++ requests s.
Proof.
  induction 1 as [s | s s1 s2 ls l _ IH Hstep].
  - cbn. by rewrite app_nil_r.
  - unfold sent, received in *. rewrite !omap_app.
    rewrite app_assoc, IH, <- !app_assoc. f_equal.
    exact (step_queue _ _ _ Hstep).
Qed.

End DispatchFacts.

(** X21.  The queue is first-in first-out and loses nothing: at any moment,
    the Work Items whose send completed are, in this order, those the
    workers have received followed by those still in the queue. *)
Theorem queue_is_fifo (n : nat) (ls : list Scheduling.label) (s : Scheduling.state) :
  Scheduling.exec (Scheduling.NewPool n) ls s →
  Dispatch.sent ls = Dispatch.received ls ++ Scheduling.requests s.
Proof. intros Hexec. exact (exec_queue _ _ _ Hexec). Qed.

Lemma queue_is_fifo_witness :
  Dispatch.sent [Scheduling.Call 0; Scheduling.Send 0; Scheduling.Call 1]
  = Dispatch.received [Scheduling.Call 0; Scheduling.Send 0; Scheduling.Call 1]
    ++ Scheduling.requests Scheduling.queue_full.
Proof. exact (queue_is_fifo 1 _ _ queue_full_reached). Defined.

Section StageFacts.
Import Scheduling Dispatch.

Lemma about_snoc (r : nat) (ls : list label) (l : label) :
  List.filter (about r) (ls ++ [l])
  = List.filter (about r) ls ++ (if about r l then [l] else []).
Proof. rewrite List.filter_app. cbn. by destruct (about r l). Qed.

Lemma queued_snoc (r r' : nat) (q : list nat) :
  queued r (q ++ [r']) = queued r q + (if Nat.eqb r r' then 1 else 0).
Proof.
  unfold queued. rewrite List.filter_app, length_app. cbn.
  by destruct (Nat.eqb r r').
Qed.

Lemma queued_cons (r r' : nat) (q : list nat) :
  queued r (r' :: q) = (if Nat.eqb r r' then 1 else 0) + queued r q.
Proof. unfold queued. cbn. by destruct (Nat.eqb r r'). Qed.

(** Replacing a worker that does not hold [r] by one that does not hold
    [r] changes nothing for [r]. *)
Lemma nobody_holds_insert (r i : nat) (wk' : worker) (ws : list worker) :
  holds r wk' = false →
  (∀ j wk, ws !! j = Some wk → holds r wk = false) →
  ∀ j wk, <[i := wk']> ws !! j = Some wk → holds r wk = false.
Proof.
  intros Hwk' Hall j wk [(-> & <- & _) | (_ & Hj)]%list_lookup_insert_Some; eauto.
Qed.

Lemma others_hold_insert (r i i0 : nat) (wk' : worker) (ws : list worker) :
  holds r wk' = false →
  (∀ j wk, ws !! j = Some wk → j ≠ i0 → holds r wk = false) →
  ∀ j wk, <[i := wk']> ws !! j = Some wk → j ≠ i0 → holds r wk = false.
Proof.
  intros Hwk' Hall j wk [(-> & <- & _) | (_ & Hj)]%list_lookup_insert_Some; eauto.
Qed.

Lemma holder_insert (r i i0 : nat) (wk0 wk' x : worker) (ws : list worker) :
  ws !! i = Some wk0 → holds r wk0 = false →
  ws !! i0 = Some x → holds r x = true →
  <[i := wk']> ws !! i0 = Some x.
Proof.
  intros Hi H0 Hi0 Hx. rewrite list_lookup_insert_ne; [done|].
  intros ->. congruence.
Qed.

(** A step about another Work Item, by a worker that neither held [r] nor
    holds it afterwards, leaves [r] at its stage. *)
Lemma stage_frame (s s' : state) (ls : list label) (l : label) (r : nat) :
  stage s ls r →
  about r l = false →
  submitters s' !! r = submitters s !! r →
  queued r (requests s') = queued r (requests s) →
  (workers s' = workers s
   ∨ ∃ i wk0 wk', workers s !! i = Some wk0 ∧ holds r wk0 = false
                  ∧ holds r wk' = false ∧ workers s' = <[i := wk']> (workers s)) →
  stage s' (ls ++ [l]) r.
Proof.
  intros Hst Hl Hsub Hq Hws.
  assert (List.filter (about r) (ls ++ [l]) = List.filter (about r) ls) as Hf
    by (by rewrite about_snoc, Hl, app_nil_r).
  destruct Hws as [Hws | (i & wk0 & wk' & Hi & H0 & H' & Hws)].
  - destruct Hst as [? ? ? ? | ? ? ? ? | ? ? ? ? | i0 ? ? ? ? ? | i0 ? ? ? ? ? | i0 ? ? ? ?];
      [ apply stage_unknown | apply stage_sending | apply stage_queued
      | apply (stage_processing _ _ _ i0) | apply (stage_signalling _ _ _ i0)
      | apply (stage_finished _ _ _ i0) ];
      rewrite ?Hf, ?Hsub, ?Hq, ?Hws; done.
  - destruct Hst as [? ? ? ? | ? ? ? ? | ? ? ? ? | i0 ? ? ? ? ? | i0 ? ? ? ? ? | i0 ? ? ? ?];
      [ apply stage_unknown | apply stage_sending | apply stage_queued
      | apply (stage_processing _ _ _ i0) | apply (stage_signalling _ _ _ i0)
      | apply (stage_finished _ _ _ i0) ];
      rewrite ?Hf, ?Hsub, ?Hq, ?Hws; try done;
      try (by apply nobody_holds_insert);
      try (by apply others_hold_insert);
      try (eapply holder_insert; [exact Hi | exact H0 | eassumption | cbn; apply Nat.eqb_refl]).
Qed.

End StageFacts.

Section StageSteps.
Import Scheduling Dispatch.

Lemma eqb_ne (r r' : nat) : r ≠ r' → Nat.eqb r r' = false.
Proof. intros Hne. by apply Nat.eqb_neq. Qed.

Lemma no_holder (r i : nat) (wk : worker) (ws : list worker) :
  (∀ j wk, ws !! j = Some wk → holds r wk = false) →
  ws !! i = Some wk → holds r wk = true → False.
Proof. intros Hall Hi Hh. rewrite (Hall i wk Hi) in Hh. done. Qed.

Lemma one_holder (r i i0 : nat) (wk : worker) (ws : list worker) :
  (∀ j wk, ws !! j = Some wk → j ≠ i0 → holds r wk = false) →
  ws !! i = Some wk → holds r wk = true → i = i0.
Proof.
  intros Hall Hi Hh. destruct (decide (i = i0)) as [|Hne]; [done|].
  rewrite (Hall i wk Hi Hne) in Hh. done.
Qed.

Lemma stage_step (s s' : state) (ls : list label) (l : label) (r : nat) :
  stage s ls r → step s l s' → stage s' (ls ++ [l]) r.
Proof.
  intros Hst Hstep.
  destruct Hstep as [s r' Hr' | s r' Hr' Hlen | s i r' rest Hi Hq | s i r' Hi
                    | s i r' Hi Hr'];
    (destruct (decide (r = r')) as [<- | Hne];
     [| apply (stage_frame s _ ls _ r Hst); cbn [about submitters requests workers];
        rewrite ?(eqb_ne _ _ Hne), ?lookup_insert_ne, ?queued_snoc, ?Hq,
                ?queued_cons, ?(eqb_ne _ _ Hne) by done;
        try done; try lia;
        try (by left);
        try (lazymatch goal with
             | |- <[?i := ?wk']> ?ws = ?ws ∨ _ =>
                 right; eexists i, _, wk'; split; [exact Hi|]; cbn [holds];
                 rewrite ?(eqb_ne _ _ Hne); done
             end) ]).
  - (* Call r *)
    destruct Hst as [Hs Hf Hqd Hw | Hs | Hs | i0 Hs | i0 Hs | i0 Hs]; try congruence.
    apply stage_sending; cbn [submitters requests workers].
    + apply lookup_insert_eq.
    + by rewrite about_snoc, Hf; cbn; rewrite Nat.eqb_refl.
    + done.
    + done.
  - (* Send r *)
    destruct Hst as [Hs | Hs Hf Hqd Hw | Hs | i0 Hs | i0 Hs | i0 Hs]; try congruence.
    apply stage_queued; cbn [submitters requests workers].
    + apply lookup_insert_eq.
    + by rewrite about_snoc, Hf; cbn; rewrite Nat.eqb_refl.
    + rewrite queued_snoc, Hqd, Nat.eqb_refl. done.
    + done.
  - (* Receive i r *)
    assert (0 < queued r (requests s)) as Hpos
      by (rewrite Hq, queued_cons, Nat.eqb_refl; lia).
    destruct Hst as [Hs Hf Hqd Hw | Hs Hf Hqd Hw | Hs Hf Hqd Hw
                    | i0 Hs Hf Hqd | i0 Hs Hf Hqd | i0 Hs Hf Hqd]; try lia.
    apply (stage_processing _ _ _ i); cbn [submitters requests workers].
    + done.
    + by rewrite about_snoc, Hf; cbn; rewrite Nat.eqb_refl.
    + rewrite Hq, queued_cons, Nat.eqb_refl in Hqd. lia.
    + apply list_lookup_insert_eq. by eapply lookup_lt_Some.
    + intros j wk Hj Hji. rewrite list_lookup_insert_ne in Hj by done. eauto.
  - (* Processed i r *)
    assert (holds r (Processing r) = true) as Hh by (cbn; apply Nat.eqb_refl).
    destruct Hst as [Hs Hf Hqd Hw | Hs Hf Hqd Hw | Hs Hf Hqd Hw
                    | i0 Hs Hf Hqd Hi0 Hw | i0 Hs Hf Hqd Hi0 Hw | i0 Hs Hf Hqd Hw];
      try (by destruct (no_holder r i _ _ Hw Hi Hh)).
    + pose proof (one_holder r i i0 _ _ Hw Hi Hh) as Heq; subst i0.
      apply (stage_signalling _ _ _ i); cbn [submitters requests workers].
      * done.
      * by rewrite about_snoc, Hf; cbn; rewrite Nat.eqb_refl.
      * done.
      * apply list_lookup_insert_eq. by eapply lookup_lt_Some.
      * intros j wk Hj Hji. rewrite list_lookup_insert_ne in Hj by done. eauto.
    + pose proof (one_holder r i i0 _ _ Hw Hi Hh) as Heq; subst i0. congruence.
  - (* Done i r *)
    assert (holds r (Signalling r) = true) as Hh by (cbn; apply Nat.eqb_refl).
    destruct Hst as [Hs Hf Hqd Hw | Hs Hf Hqd Hw | Hs Hf Hqd Hw
                    | i0 Hs Hf Hqd Hi0 Hw | i0 Hs Hf Hqd Hi0 Hw | i0 Hs Hf Hqd Hw];
      try (by destruct (no_holder r i _ _ Hw Hi Hh)).
    + pose proof (one_holder r i i0 _ _ Hw Hi Hh) as Heq; subst i0. congruence.
    + pose proof (one_holder r i i0 _ _ Hw Hi Hh) as Heq; subst i0.
      apply (stage_finished _ _ _ i); cbn [submitters requests workers].
      * apply lookup_insert_eq.
      * by rewrite about_snoc, Hf; cbn; rewrite Nat.eqb_refl.
      * done.
      * intros j wk [(-> & <- & _) | (Hji & Hj)]%list_lookup_insert_Some; [done|].
        eauto.
Qed.

Lemma exec_stage (n : nat) (ls : list label) (s : state) (r : nat) :
  exec (NewPool n) ls s → stage s ls r.
Proof.
  remember (NewPool n) as s0 eqn:Hs0.
  induction 1 as [s | s s1 s2 ls l _ IH Hstep]; subst.
  - apply stage_unknown; cbn; try done.
    intros j wk [-> _]%lookup_replicate. done.
  - eapply stage_step; [by apply IH | done].
Qed.

End StageSteps.

(** X22.  Every Work Item goes through the pool once, in the order call of
    [Submit], send, receive, processing, [Done], and with one worker: at any
    moment the steps about a Work Item are a prefix of that sequence, for a
    single worker, and they are the whole sequence exactly when [Submit] has
    returned.  No Work Item is received twice or answered twice. *)
Theorem work_item_lifecycle
    (n : nat) (ls : list Scheduling.label) (s : Scheduling.state) (r : nat) :
  Scheduling.exec (Scheduling.NewPool n) ls s →
  ∃ i, List.filter (Dispatch.about r) ls `prefix_of` Dispatch.lifecycle i r
       ∧ (Scheduling.submitters s !! r = Some Scheduling.Finished
          ↔ List.filter (Dispatch.about r) ls = Dispatch.lifecycle i r).
Proof.
  intros Hexec.
  destruct (exec_stage n ls s r Hexec)
    as [Hs Hf _ _ | Hs Hf _ _ | Hs Hf _ _ | i Hs Hf _ _ _ | i Hs Hf _ _ _ | i Hs Hf _ _];
    [exists 0 | exists 0 | exists 0 | exists i | exists i | exists i];
    rewrite Hf, Hs; unfold Dispatch.lifecycle;
    (split; [| split; [intros [=] | intros [=]]]); try done.
  - by eexists.
  - by eexists.
  - by eexists.
  - by eexists.
  - by eexists.
Qed.

Lemma work_item_lifecycle_witness :
  ∃ i, List.filter (Dispatch.about 0)
         [Scheduling.Call 0; Scheduling.Send 0; Scheduling.Call 1]
       `prefix_of` Dispatch.lifecycle i 0.
Proof.
  destruct (work_item_lifecycle 1 _ _ 0 queue_full_reached) as (i & Hpre & _).
  exists i. exact Hpre.
Defined.

Section Progress.
Import Scheduling Dispatch.

Lemma workers_idle_or_busy (ws : list worker) :
  Forall (λ wk, wk = Receiving) ws
  ∨ ∃ i r, ws !! i = Some (Processing r) ∨ ws !! i = Some (Signalling r).
Proof.
  induction ws as [| wk ws [IH | (i & r & IH)]].
  - left. constructor.
  - destruct wk as [| r | r].
    + left. by constructor.
    + right. exists 0, r. by left.
    + right. exists 0, r. by right.
  - right. exists (S i), r. exact IH.
Qed.

End Progress.

(** X23.  The pool cannot deadlock: in a pool of at least one worker, as
    long as some submitter is inside [Submit], some goroutine can take a
    step, without any new request arriving. *)
Theorem pool_makes_progress
    (n : nat) (ls : list Scheduling.label) (s : Scheduling.state) (r : nat) :
  Scheduling.exec (Scheduling.NewPool n) ls s →
  0 < n →
  Scheduling.submitters s !! r = Some Scheduling.Sending
  ∨ Scheduling.submitters s !! r = Some Scheduling.Waiting →
  ∃ l s', Scheduling.step s l s' ∧ ∀ r', l ≠ Scheduling.Call r'.
Proof.
  intros Hexec Hn Hpending.
  destruct (exec_shape n ls s Hexec) as (Hcap & Hlen & _).
  destruct (workers_idle_or_busy (Scheduling.workers s))
    as [Hidle | (i & r' & [Hi | Hi])].
  - destruct (Scheduling.requests s) as [| r' rest] eqn:Hq.
    + assert (Scheduling.submitters s !! r = Some Scheduling.Sending) as Hsend.
      { destruct Hpending as [|Hwait]; [done|].
        destruct (exec_stage n ls s r Hexec)
          as [Hs | Hs | Hs _ Hqd _ | i Hs _ _ Hi _ | i Hs _ _ Hi _ | i Hs];
          try congruence.
        - rewrite Hq in Hqd. done.
        - rewrite Forall_forall in Hidle.
          by specialize (Hidle _ (list_elem_of_lookup_2 _ _ _ Hi)).
        - rewrite Forall_forall in Hidle.
          by specialize (Hidle _ (list_elem_of_lookup_2 _ _ _ Hi)). }
      eexists (Scheduling.Send r), _. split; [|done].
      apply Scheduling.step_send; [done|]. rewrite Hq, Hcap. cbn. lia.
    + destruct (Scheduling.workers s) as [| wk ws] eqn:Hws; [cbn in Hlen; lia|].
      apply Forall_cons in Hidle as [-> _].
      eexists (Scheduling.Receive 0 r'), _. split; [|done].
      eapply Scheduling.step_receive; [by rewrite Hws | done].
  - eexists (Scheduling.Processed i r'), _. split; [|done].
    by apply Scheduling.step_processed.
  - assert (Scheduling.submitters s !! r' = Some Scheduling.Waiting) as Hwait.
    { assert (Dispatch.holds r' (Scheduling.Signalling r') = true) as Hh
        by (cbn; apply Nat.eqb_refl).
      destruct (exec_stage n ls s r' Hexec)
        as [_ _ _ Hw | _ _ _ Hw | _ _ _ Hw | i0 Hs | i0 Hs | i0 _ _ _ Hw];
        try done; by destruct (no_holder r' i _ _ Hw Hi Hh). }
    eexists (Scheduling.Done i r'), _. split; [|done].
    by apply Scheduling.step_done.
Qed.

Lemma pool_makes_progress_witness :
  ∃ l s', Scheduling.step Scheduling.queue_full l s' ∧ ∀ r', l ≠ Scheduling.Call r'.
Proof.
  apply (pool_makes_progress 1 _ _ 1 queue_full_reached).
  - lia.
  - left. reflexivity.
Defined.

(** ** The older entry point *)

Section LegacyFacts.
Import Elasticsearch Worker Config.
Variable env : Env.



End LegacyFacts.



(** X25.  The older entry point answers 500 and sends nothing when the
    sanitized Document cannot be marshalled, when [ES_URL], [ES_API_KEY] or
    [ES_INDEX] is missing at the time of the request, or when the URL is
    rejected: unlike the client, it does not retry a URL it cannot build a
    request for. *)
Theorem Legacy_internal_errors
    (env : Env) (environ : gmap string string) (r : Worker.HttpRequest)
    (w : Worker.ResponseWriter) (body : list byte) (data : jvalue)
    (world : World) (msg : string) :
  Worker.Method r = "POST" →
  Worker.Body r = inr body →
  Legacy.Unmarshal_data env body = inr data →
  Worker.Status w = None →
  (∃ err, json_Marshal env (VObj (Main.sanitizeJSON (Legacy.pairs_of data))) = inl err
          ∧ msg = "Error processing JSON: " +:+ Error err)
  ∨ (∃ cleanBody,
        json_Marshal env (VObj (Main.sanitizeJSON (Legacy.pairs_of data)))
        = inr cleanBody
        ∧ msg = "Internal server error"
        ∧ ((∃ err, Config.getESConfig environ = inl err)
           ∨ ∃ esConfig,
               Config.getESConfig environ = inr esConfig
               ∧ is_Some (http_NewRequest env "POST"
                            (Elasticsearch.esURL
                               {| Elasticsearch.config := esConfig |})))) →
  ∃ w' : Worker.ResponseWriter,
    Legacy.processRequest env environ r w world
    = (w', {| calls := calls world; trace := trace world ++ [EvDone] |})
    ∧ Worker.Status w' = Some 500%Z
    ∧ Worker.Written w' = Worker.Written w ++ bytes_of_string msg ++ [Byte.x0a].
Proof.
  intros Hm Hb Hd Hs Hcause.
  assert (Legacy.process env environ r w world
          = (Worker.http_Error msg Legacy.StatusInternalServerError
               (Worker.Header_Set "Content-Type" "application/json" w), world))
    as Hrun.
  { unfold Legacy.process.
    rewrite bool_decide_eq_false_2 by (by rewrite Hm; intros []).
    rewrite Hb, Hd.
    destruct Hcause as [(err & -> & ->)
                       | (cleanBody & -> & -> & [(err & ->) | (esConfig & -> & [e He])])];
      try done.
    unfold Elasticsearch.esURL in He. cbn [Elasticsearch.config] in He.
    by rewrite He. }
  unfold Legacy.processRequest, bind, emit, ret. rewrite Hrun.
  eexists. split; [reflexivity|].
  destruct (http_Error_fresh msg Legacy.StatusInternalServerError
              (Worker.Header_Set "Content-Type" "application/json" w) Hs)
    as (H1 & H2 & _).
  done.
Qed.

Lemma Legacy_internal_errors_witness :
  Worker.Status
    (fst (Legacy.processRequest Legacy.posts_empty_name ∅
            {| Worker.Method := "POST"; Worker.Body := inr [] |}
            Worker.fresh Elasticsearch.start)) = Some 500%Z.
Proof.
  destruct (Legacy_internal_errors Legacy.posts_empty_name ∅
              {| Worker.Method := "POST"; Worker.Body := inr [] |}
              Worker.fresh [] (VObj {[ "name" := VStr "" ]})
              Elasticsearch.start "Internal server error")
    as (w' & -> & Hs & _).
  - reflexivity.
  - reflexivity.
  - reflexivity.
  - reflexivity.
  - right. exists (bytes_of_string "{}"). split; [reflexivity|]. split; [reflexivity|].
    left. by eexists.
  - exact Hs.
Defined.


